(** * Meta-features of a tabular dataset: [metafeatures/dataset_describe.py]

    A shallow embedding of the [Dataset] class and of the part of pandas,
    numpy and scikit-learn it calls, followed by the properties of the
    descriptor that the specification states.

    Conventions.
    - A Python call either returns or raises: [result].
    - A method of [Dataset] reads and writes the instance it is called on
      and the attributes of the class, which every instance shares: the
      [method] monad threads both.
    - Cell values are integers, strings or the missing marker; floating
      point cell values are outside the model.  Statistics are exact
      rationals or the not-a-number sentinel ([scalar]); the reductions of
      pandas and numpy that need floating point are the fields of the
      class [NumericLib], and the general theorems hold for every
      implementation of it. *)

From Stdlib Require Import ZArith QArith Qabs Lia DecimalString.
From stdpp Require Import gmap strings list fin_maps.

Close Scope Q_scope.

(** ** Outcomes of a Python call *)

Inductive exn := ValueError | KeyError | IndexError | AttributeError.

Inductive result (A : Type) :=
| Ok (a : A)
| Raise (e : exn).
Arguments Ok {A} a.
Arguments Raise {A} e.

Definition result_bind {A B} (r : result A) (k : A → result B) : result B :=
  match r with
  | Ok a => k a
  | Raise e => Raise e
  end.

(** ** The tabular container (pandas) *)

Inductive value :=
| VNaN                (* the missing marker *)
| VInt (z : Z)
| VStr (s : string).

Inductive dtype := numeric | object.

Record column := Column {
  label : string;
  kind : dtype;
  cells : list value
}.

(** A frame is the sequence of its columns, in declared order.  pandas
    allows two columns to carry the same label. *)
Abbreviation DataFrame := (list column).

Global Instance value_eq_dec : EqDecision value.
Proof. solve_decision. Defined.

Global Instance dtype_eq_dec : EqDecision dtype.
Proof. solve_decision. Defined.

(** [df.columns.tolist()] *)
Definition columns (df : DataFrame) : list string := label <$> df.

(** [df._get_numeric_data()]: the columns of numeric dtype. *)
Definition _get_numeric_data (df : DataFrame) : DataFrame :=
  filter (λ c, kind c = numeric) df.

(** [df.shape]: rows are aligned across columns, the first column gives
    their number. *)
Definition shape0 (df : DataFrame) : nat :=
  match df with
  | [] => 0
  | c :: _ => length (cells c)
  end.

Definition shape1 (df : DataFrame) : nat := length df.

Definition aligned (df : DataFrame) : Prop :=
  Forall (λ c, length (cells c) = shape0 df) df.

(** [s.unique()]: the distinct values in order of first appearance; the
    missing marker is one of them when it occurs. *)
Definition unique (vs : list value) : list value :=
  reverse (remove_dups (reverse vs)).

(** [s.dropna()] *)
Definition dropna (vs : list value) : list value :=
  filter (λ v, v ≠ VNaN) vs.

Definition count (v : value) (vs : list value) : nat :=
  length (filter (λ w, w = v) vs).

(** [s.value_counts()] with its default [dropna=True]: one entry per
    distinct non-missing value, holding its number of occurrences.  pandas
    orders the entries by decreasing count; here they are in order of first
    appearance. *)
Definition value_counts (vs : list value) : list (value * nat) :=
  (λ v, (v, count v vs)) <$> unique (dropna vs).

(** [df[col]] followed by a call of a Series method.  A label carried by
    no column raises KeyError.  A label carried by several columns selects
    a frame, which has none of the Series methods the descriptor calls on
    the selection ([unique], and [value_counts] in the pandas of the time
    of the source, before 1.1): AttributeError. *)
Definition getitem (df : DataFrame) (col : string) : result column :=
  match filter (λ c, label c = col) df with
  | [] => Raise KeyError
  | [k] => Ok k
  | _ => Raise AttributeError
  end.

(** [df[col] = vs] for a label already in the frame: the cells of the
    column are replaced where it stands. *)
Definition setitem (df : DataFrame) (col : string) (ty : dtype)
    (vs : list value) : DataFrame :=
  (λ c, if decide (label c = col) then Column col ty vs else c) <$> df.

(** [str(v)] *)
Definition py_str (v : value) : string :=
  match v with
  | VNaN => "nan"
  | VInt z => NilZero.string_of_int (Z.to_int z)
  | VStr s => s
  end.

(** Sorting of cell values, as [np.unique] and the categories of
    [get_dummies] need it: numbers before strings, the missing marker
    last. *)
Definition value_leb (a b : value) : bool :=
  match a, b with
  | VInt x, VInt y => (x <=? y)%Z
  | VInt _, _ => true
  | VStr _, VInt _ => false
  | VStr x, VStr y => String.leb x y
  | VStr _, VNaN => true
  | VNaN, VNaN => true
  | VNaN, _ => false
  end.

Fixpoint insert_sorted (v : value) (vs : list value) : list value :=
  match vs with
  | [] => [v]
  | w :: ws => if value_leb v w then v :: w :: ws else w :: insert_sorted v ws
  end.

Definition sorted (vs : list value) : list value :=
  foldr insert_sorted [] vs.

Fixpoint index_of (v : value) (vs : list value) : nat :=
  match vs with
  | [] => 0
  | w :: ws => if decide (w = v) then 0 else S (index_of v ws)
  end.

(** ** The encoders (scikit-learn, pandas) *)

(** [LabelEncoder().fit_transform(s)]: the classes are the sorted distinct
    values, the code of a value is its position among them. *)
Definition LabelEncoder_classes (vs : list value) : list value :=
  sorted (unique vs).

Definition LabelEncoder_fit_transform (vs : list value) : list value :=
  (λ v, VInt (Z.of_nat (index_of v (LabelEncoder_classes vs)))) <$> vs.

(** The indicator column of one category of the column [k]: named
    [col_value], holding 1 on the rows whose cell is that category and 0
    elsewhere (so 0 on a row whose cell is missing). *)
Definition indicator (k : column) (lv : value) : column :=
  Column (label k +:+ "_" +:+ py_str lv) numeric
         ((λ v, if decide (v = lv) then VInt 1 else VInt 0) <$> cells k).

(** The categories of [get_dummies]: the sorted distinct non-missing
    values ([dummy_na=False]). *)
Definition levels (k : column) : list value :=
  sorted (unique (dropna (cells k))).

Definition dummies (k : column) : DataFrame :=
  indicator k <$> levels k.

(** [pd.get_dummies(df, columns=[col])] where [col] selects the one column
    [k]: the column is dropped and its indicator columns are appended. *)
Definition get_dummies (df : DataFrame) (k : column) : DataFrame :=
  filter (λ c, label c ≠ label k) df ++ dummies k.

(** ** Python sets of labels *)

(** [list(set(xs) - set(ys))]: the distinct elements of [xs] that are not
    in [ys].  Python leaves the order of the result open. *)
Definition set_difference (xs ys : list string) : list string :=
  list_difference (remove_dups xs) ys.

(** [set(s)] for a string [s]: iterating a string yields its characters,
    each a string of length one. *)
Fixpoint chars (s : string) : list string :=
  match s with
  | EmptyString => []
  | String c r => String c EmptyString :: chars r
  end.

(** ** Statistics *)

Inductive scalar :=
| NaN                 (* [np.nan] *)
| Num (q : Q).

(** What an accessor returns: one number, or one number per selected
    column when a pandas reduction is applied to a frame. *)
Inductive answer :=
| Scalar (x : scalar)
| PerColumn (xs : list scalar).

Inductive reduction := r_max | r_min | r_mean | r_median | r_std.

(** The floating-point collaborator: Pearson correlation of two columns,
    the reductions of a Series ([max], [min], [mean], [median],
    [std(ddof=1)]), [np.nanpercentile] and [np.nanstd(ddof=1)]. *)
Class NumericLib := {
  pearson : list value → list value → scalar;
  series_reduce : reduction → list scalar → scalar;
  np_nanpercentile : list scalar → Z → scalar;
  np_nanstd : list nat → scalar
}.

(** Reductions of a list of integers, exact. *)
Definition np_sum (l : list nat) : scalar :=
  Num (Z.of_nat (sum_list l) # 1).

Definition np_nanmean (l : list nat) : scalar :=
  match l with
  | [] => NaN
  | _ => Num (Z.of_nat (sum_list l) # Pos.of_nat (length l))
  end.

Definition np_min (l : list nat) : result scalar :=
  match l with
  | [] => Raise ValueError
  | x :: r => Ok (Num (Z.of_nat (foldr Nat.min x r) # 1))
  end.

Definition np_max (l : list nat) : result scalar :=
  match l with
  | [] => Raise ValueError
  | x :: r => Ok (Num (Z.of_nat (foldr Nat.max x r) # 1))
  end.

(** *** Columns selected from a correlation matrix *)

(** [df.corr()[col]]: the entries of the selected columns, aligned on the
    labels of the numeric columns of the frame.  One selected column makes
    a Series, several make a frame. *)
Record corr_table := CorrTable {
  index : list string;
  selected : list (list scalar)
}.

Definition corr_getitem `{NumericLib} (df : DataFrame) (col : string)
    : result corr_table :=
  let num := _get_numeric_data df in
  match filter (λ c, label c = col) num with
  | [] => Raise KeyError
  | sel => Ok (CorrTable (columns num)
                 ((λ k, (λ c, pearson (cells c) (cells k)) <$> num) <$> sel))
  end.

Fixpoint select_by {A} (keep : list bool) (l : list A) : list A :=
  match keep, l with
  | b :: keep', x :: l' =>
      if b then x :: select_by keep' l' else select_by keep' l'
  | _, _ => []
  end.

(** [t.loc[t.index != col]] *)
Definition loc_index_ne (t : corr_table) (col : string) : corr_table :=
  let keep := (λ i, bool_decide (i ≠ col)) <$> index t in
  CorrTable (select_by keep (index t)) (select_by keep <$> selected t).

Definition scalar_abs (x : scalar) : scalar :=
  match x with
  | NaN => NaN
  | Num q => Num (Qabs q)
  end.

(** [t.abs()] *)
Definition table_abs (t : corr_table) : corr_table :=
  CorrTable (index t) ((λ c : list scalar, scalar_abs <$> c) <$> selected t).

(** A Series reduction on the selection. *)
Definition reduce `{NumericLib} (r : reduction) (t : corr_table) : answer :=
  match selected t with
  | [c] => Scalar (series_reduce r c)
  | cs => PerColumn (series_reduce r <$> cs)
  end.

(** The entries row by row, as numpy flattens its argument. *)
Fixpoint rows_of (n : nat) (cs : list (list scalar)) : list scalar :=
  match n with
  | 0 => []
  | S n' => (cs ≫= take 1) ++ rows_of n' (drop 1 <$> cs)
  end.

Definition ravel (t : corr_table) : list scalar :=
  rows_of (length (index t)) (selected t).

(** ** The descriptor *)

Record Dataset := mkDataset {
  df : DataFrame;
  df_encoded : DataFrame;
  categorical_cols : list string;
  dependent_col : string;
  prediction_type : string;
  independent_col : list string;
  (* per-instance memo slots; the class gives both the default None *)
  corr_with_dependent : option corr_table;
  class_probablities : option (list (value * scalar))
}.

Global Instance result_ret : MRet result := @Ok.
Global Instance result_mbind : MBind result := λ A B k r, result_bind r k.

Definition _set_dependent_col (df : DataFrame) (dependent_col : option string)
    : result string :=
  match dependent_col with
  | None =>
      match last (columns df) with
      | Some c => Ok c
      | None => Raise IndexError
      end
  | Some c => if decide (c ∈ columns df) then Ok c else Raise ValueError
  end.

Definition _set_prediction_type (df : DataFrame) (dependent_col : string)
    (prediction_type : option string) : string :=
  match prediction_type with
  | None =>
      if decide (dependent_col ∈ columns (_get_numeric_data df))
      then "regression" else "classification"
  | Some p => p
  end.

Definition _set_categorical_columns (df : DataFrame) (dependent_col : string)
    (categorical_cols : option (list string)) : list string :=
  match categorical_cols with
  | None =>
      set_difference (columns df)
        (columns (_get_numeric_data df) ++ [dependent_col])
  | Some cs => cs
  end.

(** The body of the loop of [_categorical_column_encoder]. *)
Definition encode_column (df_encoded : DataFrame) (col : string)
    : result DataFrame :=
  k ← getitem df_encoded col;
  if decide (length (unique (cells k)) ≤ 2)
  then Ok (setitem df_encoded col numeric (LabelEncoder_fit_transform (cells k)))
  else Ok (get_dummies df_encoded k).

Fixpoint encode_columns (cols : list string) (df_encoded : DataFrame)
    : result DataFrame :=
  match cols with
  | [] => Ok df_encoded
  | col :: rest => df' ← encode_column df_encoded col; encode_columns rest df'
  end.

Definition _categorical_column_encoder (df : DataFrame)
    (categorical_cols : list string) : result DataFrame :=
  encode_columns categorical_cols df.

Definition __init__ (df : DataFrame) (prediction_type dependent_col : option string)
    (categorical_cols : option (list string)) : result Dataset :=
  dep ← _set_dependent_col df dependent_col;
  let cats := _set_categorical_columns df dep categorical_cols in
  let pt := _set_prediction_type df dep prediction_type in
  let indep := set_difference (columns df) (chars dep) in
  enc ← _categorical_column_encoder df cats;
  Ok (mkDataset df enc cats dep pt indep None None).

(** ** Methods and the state they share *)

(** A method runs on the instance it is called on and on the attributes of
    the class.  [Dataset.symbol_counts_dict] is a dict created once, when
    the class is defined; no method rebinds the attribute, so every
    instance reaches that one object.  The memo slots
    [corr_with_dependent] and [class_probablities] are rebound by
    assignment on the instance and live in [Dataset]. *)
Record heap := Heap {
  self : Dataset;
  symbol_counts_dict : gmap string nat
}.

(** A raised exception leaves the writes made before it in place. *)
Definition method (A : Type) : Type := heap → result A * heap.

Global Instance method_ret : MRet method := λ A a h, (Ok a, h).
Global Instance method_mbind : MBind method := λ A B k m h,
  match m h with
  | (Ok a, h') => k a h'
  | (Raise e, h') => (Raise e, h')
  end.

Definition lift {A} (r : result A) : method A := λ h, (r, h).

Definition gets {A} (f : Dataset → A) : method A := λ h, (Ok (f (self h)), h).

(** Assignment to a memo slot of the instance. *)
Definition with_corr_with_dependent (d : Dataset) (c : option corr_table)
    : Dataset :=
  mkDataset (df d) (df_encoded d) (categorical_cols d) (dependent_col d)
    (prediction_type d) (independent_col d) c (class_probablities d).

Definition with_class_probablities (d : Dataset)
    (p : option (list (value * scalar))) : Dataset :=
  mkDataset (df d) (df_encoded d) (categorical_cols d) (dependent_col d)
    (prediction_type d) (independent_col d) (corr_with_dependent d) p.

Definition set_corr_with_dependent (c : option corr_table) : method unit :=
  λ h, (Ok (), Heap (with_corr_with_dependent (self h) c)
                    (symbol_counts_dict h)).

Definition set_class_probablities (p : option (list (value * scalar)))
    : method unit :=
  λ h, (Ok (), Heap (with_class_probablities (self h) p)
                    (symbol_counts_dict h)).

Definition get_symbol_counts_dict : method (gmap string nat) :=
  λ h, (Ok (symbol_counts_dict h), h).

(** [self.symbol_counts_dict[column] = n] *)
Definition symbol_counts_dict_setitem (column : string) (n : nat) : method unit :=
  λ h, (Ok (), Heap (self h) (<[column := n]> (symbol_counts_dict h))).

Fixpoint for_each {A} (l : list A) (body : A → method unit) : method unit :=
  match l with
  | [] => mret ()
  | x :: r => body x;; for_each r body
  end.

(** Truth values.  Comparing a pandas object with [!=] compares its
    entries one by one, and an object of such entries has no truth value:
    testing it raises ValueError. *)
Inductive pybool :=
| PyBool (b : bool)
| Elementwise (bs : list (list bool)).

Definition ne_None (o : option corr_table) : pybool :=
  match o with
  | None => PyBool false
  | Some t => Elementwise ((λ c : list scalar, (λ _, true) <$> c) <$> selected t)
  end.

Definition truth (b : pybool) : result bool :=
  match b with
  | PyBool b => Ok b
  | Elementwise _ => Raise ValueError
  end.

(** [o.abs()]: None has no such attribute. *)
Definition py_abs (o : option corr_table) : result corr_table :=
  match o with
  | None => Raise AttributeError
  | Some t => Ok (table_abs t)
  end.

(** *** Dimensions *)

Definition n_rows : method nat := f ← gets df; mret (shape0 f).

Definition n_columns : method nat := f ← gets df; mret (shape1 f).

Definition n_categorical : method nat :=
  cs ← gets categorical_cols; mret (length cs).

Definition n_numerical : method Z :=
  c ← n_columns; k ← n_categorical; mret (Z.of_nat c - Z.of_nat k - 1)%Z.

Definition n_classes : method scalar :=
  pt ← gets prediction_type;
  if decide (pt = "classification") then
    f ← gets df; d ← gets dependent_col;
    k ← lift (getitem f d);
    mret (Num (Z.of_nat (length (unique (cells k))) # 1))
  else mret NaN.

(** *** Correlation with the dependent column *)

Definition _get_corr_with_dependent `{NumericLib} : method (option corr_table) :=
  pt ← gets prediction_type;
  if decide (pt = "regression") then
    c ← gets corr_with_dependent;
    b ← lift (truth (ne_None c));
    if b : bool then mret c
    else
      e ← gets df_encoded; d ← gets dependent_col;
      t ← lift (corr_getitem e d);
      set_corr_with_dependent (Some t);;
      set_corr_with_dependent (Some (loc_index_ne t d));;
      gets corr_with_dependent
  else mret None.

(** The shape the seven accessors share: the guard on the prediction
    type, then a statistic of the absolute correlations. *)
Definition corr_stat `{NumericLib} (stat : corr_table → answer) : method answer :=
  pt ← gets prediction_type;
  if decide (pt = "classification") then mret (Scalar NaN)
  else
    c ← _get_corr_with_dependent;
    abs_corr_with_dependent ← lift (py_abs c);
    mret (stat abs_corr_with_dependent).

Definition corr_with_dependent_abs_max `{NumericLib} : method answer :=
  corr_stat (reduce r_max).
Definition corr_with_dependent_abs_min `{NumericLib} : method answer :=
  corr_stat (reduce r_min).
Definition corr_with_dependent_abs_mean `{NumericLib} : method answer :=
  corr_stat (reduce r_mean).
Definition corr_with_dependent_abs_median `{NumericLib} : method answer :=
  corr_stat (reduce r_median).
Definition corr_with_dependent_abs_std `{NumericLib} : method answer :=
  corr_stat (reduce r_std).
Definition corr_with_dependent_abs_25p `{NumericLib} : method answer :=
  corr_stat (λ t, Scalar (np_nanpercentile (ravel t) 25)).
Definition corr_with_dependent_abs_75p `{NumericLib} : method answer :=
  corr_stat (λ t, Scalar (np_nanpercentile (ravel t) 75)).

Definition corr_accessors `{NumericLib} : list (method answer) :=
  [ corr_with_dependent_abs_max; corr_with_dependent_abs_min;
    corr_with_dependent_abs_mean; corr_with_dependent_abs_median;
    corr_with_dependent_abs_std; corr_with_dependent_abs_25p;
    corr_with_dependent_abs_75p ].

(** *** Class probabilities *)

(** [count / n_rows], a true division.  On a frame with aligned rows the
    divisor is zero only when there is no count to divide. *)
Definition true_div (c n : nat) : scalar :=
  match n with
  | 0 => NaN
  | _ => Num (Z.of_nat c # Pos.of_nat n)
  end.

(** [counts / n], entry by entry. *)
Definition counts_div (counts : list (value * nat)) (n : nat)
    : list (value * scalar) :=
  (λ vc : value * nat, (vc.1, true_div vc.2 n)) <$> counts.

Definition _get_class_probablity : method (list (value * scalar)) :=
  p ← gets class_probablities;
  match p with
  | None =>
      f ← gets df; d ← gets dependent_col;
      dependent_col ← lift (getitem f d);
      let class_counts := value_counts (cells dependent_col) in
      n ← n_rows;
      set_class_probablities (Some (counts_div class_counts n));;
      mret (counts_div class_counts n)
  | Some probs => mret probs
  end.

Definition class_prob_stat `{NumericLib} (r : reduction) : method scalar :=
  pt ← gets prediction_type;
  if decide (pt = "regression") then mret NaN
  else
    class_probablities ← _get_class_probablity;
    mret (series_reduce r (class_probablities.*2)).

Definition class_prob_min `{NumericLib} : method scalar := class_prob_stat r_min.
Definition class_prob_max `{NumericLib} : method scalar := class_prob_stat r_max.
Definition class_prob_std `{NumericLib} : method scalar := class_prob_stat r_std.
Definition class_prob_mean `{NumericLib} : method scalar := class_prob_stat r_mean.
Definition class_prob_median `{NumericLib} : method scalar :=
  class_prob_stat r_median.

Definition class_prob_accessors `{NumericLib} : list (method scalar) :=
  [ class_prob_min; class_prob_max; class_prob_std; class_prob_mean;
    class_prob_median ].

(** *** Symbols per categorical column *)

Definition _get_symbols_per_category : method (gmap string nat) :=
  d ← get_symbol_counts_dict;
  if decide (d = ∅) then
    cs ← gets categorical_cols;
    for_each cs (λ column,
      f ← gets df;
      k ← lift (getitem f column);
      symbol_counts_dict_setitem column (length (unique (dropna (cells k)))));;
    get_symbol_counts_dict
  else mret d.

(** [d.values()], a list in the Python 2 of the source; the order of a
    dict is left open. *)
Definition dict_values (d : gmap string nat) : list nat := (map_to_list d).*2.

Definition symbols_stat (stat : list nat → result scalar) : method scalar :=
  symbol_counts_dict ← _get_symbols_per_category;
  if decide (symbol_counts_dict = ∅) then mret NaN
  else lift (stat (dict_values symbol_counts_dict)).

Definition symbols_mean : method scalar := symbols_stat (λ l, Ok (np_nanmean l)).
Definition symbols_std `{NumericLib} : method scalar :=
  symbols_stat (λ l, Ok (np_nanstd l)).
Definition symbols_min : method scalar := symbols_stat np_min.
Definition symbols_max : method scalar := symbols_stat np_max.
Definition symbols_sum : method scalar := symbols_stat (λ l, Ok (np_sum l)).

Definition symbols_accessors `{NumericLib} : list (method scalar) :=
  [ symbols_mean; symbols_std; symbols_min; symbols_max; symbols_sum ].

(** ** A reference implementation of the numeric collaborator

    Exact rational arithmetic, square roots rounded down to six decimal
    places.  It serves to run the descriptor on concrete frames; the
    general theorems below are proved for every [NumericLib]. *)
Module Reference.

Definition numbers (l : list scalar) : list Q :=
  l ≫= λ x, match x with NaN => [] | Num q => [q] end.

Definition Qsum (l : list Q) : Q := foldr Qplus 0%Q l.

Definition Qmean (l : list Q) : Q :=
  (Qsum l / (Z.of_nat (length l) # 1))%Q.

Fixpoint Qinsert (q : Q) (l : list Q) : list Q :=
  match l with
  | [] => [q]
  | r :: l' => if Qle_bool q r then q :: l else r :: Qinsert q l'
  end.

Definition Qsort (l : list Q) : list Q := foldr Qinsert [] l.

Definition Qsqrt_down (q : Q) : Q :=
  (Z.sqrt (Qnum q * 10 ^ 12 / Zpos (Qden q)) # 10 ^ 6)%Z%Q.

(** Sum of squared deviations from the mean. *)
Definition Qss (l : list Q) : Q :=
  Qsum ((λ x, (x - Qmean l) * (x - Qmean l))%Q <$> l).

Definition Qstd (l : list Q) : scalar :=
  match l with
  | [] | [_] => NaN
  | _ => Num (Qsqrt_down (Qss l / (Z.of_nat (length l - 1) # 1))%Q)
  end.

Definition reduce_numbers (r : reduction) (l : list Q) : scalar :=
  match l with
  | [] => NaN
  | x :: l' =>
      match r with
      | r_max => Num (foldr (λ a b, if Qle_bool a b then b else a) x l')
      | r_min => Num (foldr (λ a b, if Qle_bool a b then a else b) x l')
      | r_mean => Num (Qred (Qmean l))
      | r_median =>
          let s := Qsort l in
          let n := length l in
          if Nat.even n
          then Num (Qred ((nth (n / 2 - 1) s 0 + nth (n / 2) s 0) / 2)%Q)
          else Num (nth (n / 2) s 0%Q)
      | r_std => Qstd l
      end
  end.

(** Linear interpolation between the two closest ranks. *)
Definition percentile (l : list Q) (p : Z) : scalar :=
  match l with
  | [] => NaN
  | _ =>
      let s := Qsort l in
      let pos := (Z.of_nat (length l - 1) * p)%Z in
      let i := Z.to_nat (pos / 100) in
      let frac := (pos mod 100 # 100)%Q in
      let lo := nth i s 0%Q in
      let hi := nth (S i) s lo in
      Num (Qred (lo + frac * (hi - lo))%Q)
  end.

Definition paired (xs ys : list value) : list (Q * Q) :=
  zip xs ys ≫= λ p,
    match p with
    | (VInt a, VInt b) => [((a # 1)%Q, (b # 1)%Q)]
    | _ => []
    end.

Definition Qpearson (xs ys : list value) : scalar :=
  let ps := paired xs ys in
  let mx := Qmean (ps.*1) in
  let my := Qmean (ps.*2) in
  let sxy := Qsum ((λ p : Q * Q, (p.1 - mx) * (p.2 - my))%Q <$> ps) in
  let d := Qsqrt_down (Qss (ps.*1) * Qss (ps.*2))%Q in
  if Qeq_bool d 0 then NaN else Num (Qred (sxy / d)%Q).

Global Instance lib : NumericLib := {|
  pearson := Qpearson;
  series_reduce r l := reduce_numbers r (numbers l);
  np_nanpercentile l p := percentile (numbers l) p;
  np_nanstd l := Qstd ((λ n, (Z.of_nat n # 1)%Q) <$> l)
|}.

End Reference.

(** ** Frames used as examples *)
Module Examples.

(** Three columns, the dependent one named by a word. *)
Definition houses : DataFrame :=
  [ Column "a" numeric [VInt 3; VInt 1; VInt 2];
    Column "b" numeric [VInt 70; VInt 35; VInt 52];
    Column "target" numeric [VInt 300; VInt 120; VInt 210] ].

(** A nominal column with three symbols and a numeric target. *)
Definition paints : DataFrame :=
  [ Column "color" object [VStr "red"; VStr "blue"; VStr "red"; VStr "green"];
    Column "x" numeric [VInt 1; VInt 2; VInt 3; VInt 5];
    Column "y" numeric [VInt 1; VInt 0; VInt 4; VInt 7] ].

(** A binary column and a label column. *)
Definition pets : DataFrame :=
  [ Column "size" object [VStr "small"; VStr "big"; VStr "big"];
    Column "label" object [VStr "cat"; VStr "dog"; VStr "dog"] ].

(** Numeric columns only. *)
Definition points : DataFrame :=
  [ Column "x" numeric [VInt 1; VInt 2; VInt 3];
    Column "y" numeric [VInt 2; VInt 4; VInt 7] ].

(** A binary column in which one cell is missing. *)
Definition survey : DataFrame :=
  [ Column "sex" object [VStr "m"; VStr "f"; VNaN; VStr "f"];
    Column "y" numeric [VInt 1; VInt 0; VInt 1; VInt 1] ].

(** A label column in which one cell is missing. *)
Definition tickets : DataFrame :=
  [ Column "x" numeric [VInt 1; VInt 2];
    Column "label" object [VStr "spam"; VNaN] ].

(** What the constructor returns on these frames. *)
Definition points_descriptor : Dataset :=
  mkDataset points points [] "y" "regression" ["x"] None None.

Definition paints_descriptor : Dataset :=
  mkDataset paints
    [ Column "x" numeric [VInt 1; VInt 2; VInt 3; VInt 5];
      Column "y" numeric [VInt 1; VInt 0; VInt 4; VInt 7];
      Column "color_blue" numeric [VInt 0; VInt 1; VInt 0; VInt 0];
      Column "color_green" numeric [VInt 0; VInt 0; VInt 0; VInt 1];
      Column "color_red" numeric [VInt 1; VInt 0; VInt 1; VInt 0] ]
    ["color"] "y" "regression" ["color"; "x"] None None.

Definition pets_encoded : DataFrame :=
  [ Column "size" numeric [VInt 1; VInt 0; VInt 0];
    Column "label" object [VStr "cat"; VStr "dog"; VStr "dog"] ].

Definition pets_descriptor : Dataset :=
  mkDataset pets pets_encoded ["size"] "label" "classification"
    ["size"; "label"] None None.

(** The same frame with a prediction type that is neither of the two. *)
Definition pets_ranking : Dataset :=
  mkDataset pets pets_encoded ["size"] "label" "ranking"
    ["size"; "label"] None None.

Definition tickets_descriptor : Dataset :=
  mkDataset tickets tickets [] "label" "classification"
    ["x"; "label"] None None.

(** The frame of pets declared a regression problem. *)
Definition pets_regression : Dataset :=
  mkDataset pets pets_encoded ["size"] "label" "regression"
    ["size"; "label"] None None.

End Examples.

(** ** Vocabulary of the properties *)

(** The number of symbols of a column: its distinct non-missing values. *)
Definition n_symbols (k : column) : nat := length (unique (dropna (cells k))).

(** The sum of a list of statistics, when none of them is the sentinel. *)
Fixpoint scalar_sum (l : list scalar) : option Q :=
  match l with
  | [] => Some 0%Q
  | NaN :: _ => None
  | Num q :: r =>
      match scalar_sum r with
      | Some s => Some (q + s)%Q
      | None => None
      end
  end.

(** The sentence on class probabilities as the specification has it: an
    entry for each distinct value of the dependent column, holding its
    count over the number of rows, and entries that sum to one. *)
Definition class_probabilities_stated (d : Dataset) : Prop :=
  ∀ cls k, getitem (df d) (dependent_col d) = Ok k →
    ∃ probs h',
      _get_class_probablity (Heap d cls) = (Ok probs, h') ∧
      (∀ v, v ∈ unique (cells k) →
         (v, true_div (count v (cells k)) (shape0 (df d))) ∈ probs) ∧
      ∃ q, scalar_sum (probs.*2) = Some q ∧ (q == 1)%Q.

(** Reading a cell as an integer, and the sum of a row over some columns. *)
Definition cell_int (v : option value) : Z :=
  match v with
  | Some (VInt z) => z
  | _ => 0%Z
  end.

Definition row_sum (cols : DataFrame) (i : nat) : Z :=
  foldr Z.add 0%Z ((λ c, cell_int (cells c !! i)) <$> cols).

Definition binary_cells (vs : list value) : Prop :=
  Forall (λ v, v = VInt 0 ∨ v = VInt 1) vs.

(** The column [k] of [df] is replaced in [enc] by one indicator column for
    each of its symbols. *)
Definition expanded (df : DataFrame) (k : column) (enc : DataFrame) : Prop :=
  ∃ ind : DataFrame,
    enc = filter (λ c, label c ≠ label k) df ++ ind ∧
    (label k ∉ columns enc) ∧
    length ind = n_symbols k ∧
    shape1 enc + 1 = shape1 df + n_symbols k ∧
    (∃ vs, vs ≡ₚ unique (dropna (cells k)) ∧
           columns ind = (λ v, label k +:+ "_" +:+ py_str v) <$> vs) ∧
    Forall (λ c, kind c = numeric ∧ binary_cells (cells c) ∧
                 length (cells c) = length (cells k)) ind ∧
    ∀ i v, cells k !! i = Some v →
           row_sum ind i = if decide (v = VNaN) then 0%Z else 1%Z.

(** The column [k] of [df] holds in [enc] integer codes among 0 and 1, and
    the frame has the columns it had. *)
Definition label_encoded (df : DataFrame) (k : column) (enc : DataFrame)
    : Prop :=
  ∃ codes,
    enc = setitem df (label k) numeric codes ∧
    columns enc = columns df ∧
    shape1 enc = shape1 df ∧
    getitem enc (label k) = Ok (Column (label k) numeric codes) ∧
    length codes = length (cells k) ∧
    binary_cells codes ∧
    ∀ i j v w, cells k !! i = Some v → cells k !! j = Some w →
               (codes !! i = codes !! j ↔ v = w).

(** The shape law of the encoding as the specification has it: the branch
    is taken on the number of distinct non-missing values. *)
Definition shape_law_stated (df : DataFrame) (col : string) : Prop :=
  ∀ k, getitem df col = Ok k →
    ∃ enc, encode_column df col = Ok enc ∧
      if decide (2 < n_symbols k) then expanded df k enc
      else label_encoded df k enc.


(** The number of symbols of the column a label selects. *)
Definition symbol_count (df : DataFrame) (c : string) : nat :=
  match getitem df c with
  | Ok k => n_symbols k
  | Raise _ => 0
  end.

(** * Properties *)

(** ** Construction *)

Section construction.
Context (data : DataFrame) (pt dep : option string)
        (cats : option (list string)).

(** Once the dependent column is resolved, construction is the encoding
    step followed by the assignment of the fields. *)
Lemma init_resolved c :
  _set_dependent_col data dep = Ok c →
  __init__ data pt dep cats =
    enc ← _categorical_column_encoder data (_set_categorical_columns data c cats);
    Ok (mkDataset data enc (_set_categorical_columns data c cats) c
          (_set_prediction_type data c pt)
          (set_difference (columns data) (chars c)) None None).
Proof. intros Hc. unfold __init__. by rewrite Hc. Qed.

Lemma init_fields d :
  __init__ data pt dep cats = Ok d →
  _set_dependent_col data dep = Ok (dependent_col d) ∧
  df d = data ∧
  prediction_type d = _set_prediction_type data (dependent_col d) pt ∧
  categorical_cols d = _set_categorical_columns data (dependent_col d) cats ∧
  independent_col d = set_difference (columns data) (chars (dependent_col d)) ∧
  _categorical_column_encoder data (categorical_cols d) = Ok (df_encoded d) ∧
  corr_with_dependent d = None ∧ class_probablities d = None.
Proof.
  unfold __init__. destruct (_set_dependent_col data dep) as [c|e]; [|done].
  simpl. destruct (_categorical_column_encoder data _) as [enc|e] eqn:He; [|done].
  simpl. intros [= <-]. simpl. by rewrite He.
Qed.

Lemma init_raises e :
  __init__ data pt dep cats = Raise e →
  _set_dependent_col data dep = Raise e ∨
  ∃ c, _set_dependent_col data dep = Ok c ∧
       _categorical_column_encoder data (_set_categorical_columns data c cats)
         = Raise e.
Proof.
  unfold __init__. destruct (_set_dependent_col data dep) as [c|e']; simpl.
  - destruct (_categorical_column_encoder data _) eqn:He; [done|].
    simpl. intros [= <-]. right. by exists c.
  - intros [= <-]. by left.
Qed.
End construction.

Lemma init_points :
  __init__ Examples.points None None None = Ok Examples.points_descriptor.
Proof. reflexivity. Qed.

Lemma init_paints :
  __init__ Examples.paints None None None = Ok Examples.paints_descriptor.
Proof. reflexivity. Qed.

Lemma init_pets :
  __init__ Examples.pets None None None = Ok Examples.pets_descriptor.
Proof. reflexivity. Qed.

Lemma init_pets_ranking :
  __init__ Examples.pets (Some "ranking") None None
    = Ok Examples.pets_ranking.
Proof. reflexivity. Qed.

Lemma init_tickets :
  __init__ Examples.tickets None None None = Ok Examples.tickets_descriptor.
Proof. reflexivity. Qed.

(** C9.  A frame with at least two columns, constructed without an explicit
    dependent column: the dependent column is resolved to the last column
    in declared order.  Resolution does not fail, every descriptor that
    construction returns carries that label, and an exception raised by
    construction is one raised by the encoding step. *)
Theorem default_dependent_col_is_last (df : DataFrame) pt cats :
  2 ≤ length (columns df) →
  ∃ c, last (columns df) = Some c ∧
       _set_dependent_col df None = Ok c ∧
       (∀ d, __init__ df pt None cats = Ok d → dependent_col d = c) ∧
       (∀ e, __init__ df pt None cats = Raise e →
             _categorical_column_encoder df (_set_categorical_columns df c cats)
               = Raise e).
Proof.
  intros Hlen.
  destruct (last (columns df)) as [c|] eqn:Hlast.
  - assert (Hres : _set_dependent_col df None = Ok c)
      by (unfold _set_dependent_col; by rewrite Hlast).
    exists c. split_and!; [done..| |].
    + intros d Hd. apply init_fields in Hd as (Hd & _). congruence.
    + intros e He. apply init_raises in He as [He|(c' & Hc' & He)]; congruence.
  - apply last_None in Hlast. rewrite Hlast in Hlen. simpl in Hlen. lia.
Qed.

Lemma default_dependent_col_is_last_witness :
  2 ≤ length (columns Examples.houses) ∧
  ∃ c, last (columns Examples.houses) = Some c ∧
       _set_dependent_col Examples.houses None = Ok c ∧
       (∀ d, __init__ Examples.houses None None None = Ok d →
             dependent_col d = c) ∧
       (∀ e, __init__ Examples.houses None None None = Raise e →
             _categorical_column_encoder Examples.houses
               (_set_categorical_columns Examples.houses c None) = Raise e).
Proof.
  split; [simpl; lia|].
  apply (default_dependent_col_is_last Examples.houses None None).
  simpl; lia.
Defined.




(** C5.  The prediction type of a constructed descriptor.  Without an
    explicit prediction type it is "regression" when the dependent column
    is among the columns of numeric dtype and "classification" otherwise;
    an explicit prediction type is taken as given, whatever the dependent
    column holds. *)
Theorem prediction_type_resolution (df : DataFrame) pt dep cats d :
  __init__ df pt dep cats = Ok d →
  match pt with
  | None =>
      (dependent_col d ∈ columns (_get_numeric_data df) →
       prediction_type d = "regression") ∧
      (dependent_col d ∉ columns (_get_numeric_data df) →
       prediction_type d = "classification")
  | Some p => prediction_type d = p
  end.
Proof.
  intros Hd. apply init_fields in Hd as (_ & _ & Hpt & _).
  rewrite Hpt. destruct pt as [p|]; simpl; [done|].
  split; intros Hnum; [by rewrite decide_True | by rewrite decide_False].
Qed.

Lemma prediction_type_resolution_witness :
  (∃ d, __init__ Examples.paints None None None = Ok d ∧
        prediction_type d = "regression") ∧
  (∃ d, __init__ Examples.pets None None None = Ok d ∧
        prediction_type d = "classification") ∧
  (∃ d, __init__ Examples.pets (Some "regression") None None = Ok d ∧
        prediction_type d = "regression").
Proof.
  split_and!.
  - destruct (__init__ Examples.paints None None None) as [d|e] eqn:Hd;
      [|by vm_compute in Hd].
    exists d. split; [done|].
    pose proof (prediction_type_resolution _ _ _ _ _ Hd) as [Hnum _].
    apply Hnum. pose proof Hd as Hd'. vm_compute in Hd'. injection Hd' as <-.
    apply (bool_decide_unpack _). by vm_compute.
  - destruct (__init__ Examples.pets None None None) as [d|e] eqn:Hd;
      [|by vm_compute in Hd].
    exists d. split; [done|].
    pose proof (prediction_type_resolution _ _ _ _ _ Hd) as [_ Hobj].
    apply Hobj. pose proof Hd as Hd'. vm_compute in Hd'. injection Hd' as <-.
    apply (bool_decide_unpack _). by vm_compute.
  - destruct (__init__ Examples.pets (Some "regression") None None)
      as [d|e] eqn:Hd; [|by vm_compute in Hd].
    exists d. split; [done|].
    exact (prediction_type_resolution _ _ _ _ _ Hd).
Defined.

(** ** Independent columns *)

Lemma elem_of_set_difference (x : string) xs ys :
  x ∈ set_difference xs ys ↔ x ∈ xs ∧ x ∉ ys.
Proof.
  unfold set_difference.
  by rewrite list_elem_of_difference, elem_of_remove_dups.
Qed.

Lemma elem_of_chars c s : c ∈ chars s → String.length c = 1.
Proof.
  induction s as [|a s IH]; simpl; [by intros ?%elem_of_nil|].
  intros [->|?]%elem_of_cons; [done|auto].
Qed.

Lemma chars_single a : chars (String a EmptyString) = [String a EmptyString].
Proof. done. Qed.

(** What line 40 computes: the labels that are not one of the characters
    of the dependent label. *)
Lemma independent_col_spec (df : DataFrame) pt dep cats d c :
  __init__ df pt dep cats = Ok d →
  c ∈ independent_col d ↔ c ∈ columns df ∧ c ∉ chars (dependent_col d).
Proof.
  intros Hd. apply init_fields in Hd as (_ & _ & _ & _ & Hi & _).
  rewrite Hi. apply elem_of_set_difference.
Qed.

(** X20.  A dependent label whose length is not one character stays among
    the independent columns. *)
Lemma independent_col_keeps_dependent (df : DataFrame) pt dep cats d :
  __init__ df pt dep cats = Ok d →
  String.length (dependent_col d) ≠ 1 →
  dependent_col d ∈ independent_col d.
Proof.
  intros Hd Hlen. rewrite (independent_col_spec _ _ _ _ _ _ Hd).
  split.
  - apply init_fields in Hd as (Hres & _).
    unfold _set_dependent_col in Hres. destruct dep as [c|].
    + case_decide; [|done]. by injection Hres as <-.
    + destruct (last (columns df)) as [c|] eqn:Hlast; [|done].
      injection Hres as <-. by apply last_Some_elem_of.
  - by intros ?%elem_of_chars.
Qed.

(** X19.  With a dependent label of one character the independent columns
    are the labels other than the dependent one. *)
Lemma independent_col_single_char (df : DataFrame) pt dep cats d c :
  __init__ df pt dep cats = Ok d →
  String.length (dependent_col d) = 1 →
  c ∈ independent_col d ↔ c ∈ columns df ∧ c ≠ dependent_col d.
Proof.
  intros Hd Hlen. rewrite (independent_col_spec _ _ _ _ _ _ Hd).
  destruct (dependent_col d) as [|a [|b s]]; [done| |done].
  rewrite chars_single, list_elem_of_singleton. done.
Qed.

(** C2.  The frame with the columns a, b and target, constructed with
    target as dependent column: the independent columns are b and target.
    The dependent column stays in, and the column a, whose label is a
    character of the dependent label, is left out. *)
Theorem independent_col_of_houses :
  ∃ d, __init__ Examples.houses None (Some "target") None = Ok d ∧
       dependent_col d = "target" ∧
       (∀ c, c ∈ independent_col d ↔ c = "b" ∨ c = "target") ∧
       ("target" ∈ independent_col d) ∧
       ("a" ∉ independent_col d) ∧
       ("a" ∈ columns (df d)).
Proof.
  eexists. split; [by vm_compute|]. simpl.
  split_and!; [done| |apply (bool_decide_unpack _); by vm_compute..].
  intros c. rewrite elem_of_cons, list_elem_of_singleton. done.
Qed.

(** ** Accessors *)

Ltac run :=
  repeat (unfold mbind, method_mbind, mret, method_ret, lift, gets,
            set_corr_with_dependent, set_class_probablities,
            get_symbol_counts_dict; simpl).

Section accessors.
Context `{NumericLib}.

Lemma corr_accessors_shape m :
  m ∈ corr_accessors → ∃ stat, m = corr_stat stat.
Proof.
  unfold corr_accessors. rewrite !elem_of_cons, elem_of_nil.
  intros Hm. repeat destruct Hm as [->|Hm]; [eexists; reflexivity..|done].
Qed.

Lemma class_prob_accessors_shape m :
  m ∈ class_prob_accessors → ∃ r, m = class_prob_stat r.
Proof.
  unfold class_prob_accessors. rewrite !elem_of_cons, elem_of_nil.
  intros Hm. repeat destruct Hm as [->|Hm]; [eexists; reflexivity..|done].
Qed.

Lemma symbols_accessors_shape m :
  m ∈ symbols_accessors → ∃ stat, m = symbols_stat stat.
Proof.
  unfold symbols_accessors. rewrite !elem_of_cons, elem_of_nil.
  intros Hm. repeat destruct Hm as [->|Hm]; [eexists; reflexivity..|done].
Qed.

(** The guards. *)
Lemma corr_stat_classification stat h :
  prediction_type (self h) = "classification" →
  corr_stat stat h = (Ok (Scalar NaN), h).
Proof. intros Hpt. unfold corr_stat. run. by rewrite Hpt. Qed.

Lemma class_prob_stat_regression r h :
  prediction_type (self h) = "regression" →
  class_prob_stat r h = (Ok NaN, h).
Proof. intros Hpt. unfold class_prob_stat. run. by rewrite Hpt. Qed.

(** The symbol counts of an instance without categorical columns, when
    the dict of the class is still empty. *)
Lemma symbols_stat_no_categorical stat h :
  categorical_cols (self h) = [] → symbol_counts_dict h = ∅ →
  symbols_stat stat h = (Ok NaN, h).
Proof.
  intros Hcs Hd. unfold symbols_stat, _get_symbols_per_category. run.
  rewrite Hd, decide_True by done. simpl. rewrite Hcs. simpl. run.
  rewrite Hd. by rewrite decide_True.
Qed.

(** Once the dict of the class holds an entry, every instance answers
    from it, whatever its own frame and categorical columns are. *)
Lemma symbols_stat_shared stat h :
  symbol_counts_dict h ≠ ∅ →
  symbols_stat stat h = (stat (dict_values (symbol_counts_dict h)), h).
Proof.
  intros Hd. unfold symbols_stat, _get_symbols_per_category. run.
  rewrite decide_False by done. simpl. by rewrite decide_False.
Qed.

(** The lookup of the memoized correlations on a regression instance:
    the first one fills the slot, a later one raises. *)
Lemma get_corr_filled t h :
  prediction_type (self h) = "regression" →
  corr_with_dependent (self h) = Some t →
  _get_corr_with_dependent h = (Raise ValueError, h).
Proof.
  intros Hpt Hc. unfold _get_corr_with_dependent. run.
  rewrite Hpt. simpl. run. by rewrite Hc.
Qed.

Lemma get_corr_returns o h h' :
  prediction_type (self h) = "regression" →
  _get_corr_with_dependent h = (Ok o, h') →
  ∃ t, o = Some t ∧ corr_with_dependent (self h') = Some t ∧
       prediction_type (self h') = "regression".
Proof.
  intros Hpt. unfold _get_corr_with_dependent. run.
  rewrite Hpt. simpl. run.
  destruct (corr_with_dependent (self h)) as [t|]; simpl; [done|].
  destruct (corr_getitem _ _) as [t|e]; simpl; [|done].
  intros [= <- <-]. simpl. eauto.
Qed.
End accessors.

(** C1.  On a regression descriptor, once a correlation accessor has
    returned, the memo slot holds the correlations, the test
    [self.corr_with_dependent != None] compares them entry by entry, and
    the [if] on the outcome raises ValueError: the next call of the same
    accessor, or of any other of the seven, raises and returns nothing.
    The lookup of the class probabilities tests its slot with [is None]
    and has no such failure ([get_class_probablity_memo]). *)
Theorem corr_accessor_second_call_raises `{NumericLib}
    (m1 m2 : method answer) d cls v h' :
  m1 ∈ corr_accessors → m2 ∈ corr_accessors →
  prediction_type d = "regression" →
  m1 (Heap d cls) = (Ok v, h') →
  m2 h' = (Raise ValueError, h').
Proof.
  intros [s1 ->]%corr_accessors_shape [s2 ->]%corr_accessors_shape Hpt.
  unfold corr_stat at 1. run. rewrite Hpt. simpl. run.
  destruct (_get_corr_with_dependent (Heap d cls)) as [[o|e] h1] eqn:Hget;
    [|done].
  apply get_corr_returns in Hget as (t & -> & Hslot & Hpt'); [|done].
  simpl. intros [= <- <-].
  unfold corr_stat. run. rewrite Hpt'. simpl. run.
  by rewrite (get_corr_filled t).
Qed.

Lemma corr_accessor_second_call_raises_witness :
  prediction_type Examples.points_descriptor = "regression" ∧
  ∃ v h',
    corr_with_dependent_abs_max (Heap Examples.points_descriptor ∅)
      = (Ok v, h') ∧
    corr_with_dependent_abs_max h' = (Raise ValueError, h').
Proof.
  split; [reflexivity|].
  eexists _, _.
  split; [vm_compute; reflexivity|].
  eapply (corr_accessor_second_call_raises
            corr_with_dependent_abs_max corr_with_dependent_abs_max
            Examples.points_descriptor ∅).
  - apply list_elem_of_here.
  - apply list_elem_of_here.
  - reflexivity.
  - vm_compute; reflexivity.
Defined.

(** ** Selection of a column by its label *)

Lemma filter_label_nil (df : DataFrame) c :
  c ∉ columns df → filter (λ k, label k = c) df = [].
Proof.
  induction df as [|a df IH]; [done|]. unfold columns. simpl.
  intros [Hne Hnin]%not_elem_of_cons.
  rewrite filter_cons, decide_False by done. by apply IH.
Qed.

Lemma getitem_Ok_inv (df : DataFrame) c k :
  getitem df c = Ok k → k ∈ df ∧ label k = c.
Proof.
  unfold getitem.
  destruct (filter _ df) as [|k' [|]] eqn:Hf; [done| |done].
  intros [= ->].
  assert (Hk : k ∈ filter (λ k, label k = c) df)
    by (rewrite Hf; apply list_elem_of_here).
  by apply list_elem_of_filter in Hk as [? ?].
Qed.

(** In a frame whose labels are pairwise distinct, a label of the frame
    selects one column. *)
Lemma getitem_NoDup (df : DataFrame) c :
  NoDup (columns df) → c ∈ columns df → ∃ k, getitem df c = Ok k.
Proof.
  unfold getitem, columns.
  induction df as [|a df IH]; simpl; [by intros _ ?%elem_of_nil|].
  intros [Hnin Hnd]%NoDup_cons Hin. rewrite filter_cons.
  case_decide as Ha.
  - subst c. rewrite filter_label_nil by done. eauto.
  - apply elem_of_cons in Hin as [Hin|Hin]; [done|]. by apply IH.
Qed.

(** ** Class probabilities *)

Section class_probabilities.
Context `{NumericLib}.

(** The first lookup computes the frequencies from the dependent column
    and stores them in the slot of the instance. *)
Lemma get_class_probablity_first h k :
  class_probablities (self h) = None →
  getitem (df (self h)) (dependent_col (self h)) = Ok k →
  let probs := counts_div (value_counts (cells k)) (shape0 (df (self h))) in
  _get_class_probablity h =
    (Ok probs, Heap (with_class_probablities (self h) (Some probs))
                    (symbol_counts_dict h)).
Proof.
  intros Hp Hk. unfold _get_class_probablity, n_rows. run.
  rewrite Hp. simpl. run. by rewrite Hk.
Qed.

(** A later lookup returns what the slot holds and writes nothing. *)
Lemma get_class_probablity_memo h probs :
  class_probablities (self h) = Some probs →
  _get_class_probablity h = (Ok probs, h).
Proof. intros Hp. unfold _get_class_probablity. run. by rewrite Hp. Qed.

Lemma class_prob_stat_compute r h :
  prediction_type (self h) ≠ "regression" →
  class_prob_stat r h =
    (class_probablities ← _get_class_probablity;
     mret (series_reduce r (class_probablities.*2))) h.
Proof. intros Hpt. unfold class_prob_stat. run. by rewrite decide_False. Qed.
End class_probabilities.

(** C10.  A descriptor constructed with an explicit prediction type that
    is neither "regression" nor "classification".  Every correlation
    accessor raises AttributeError: the guard does not return the sentinel,
    the lookup of the correlations computes nothing and returns None, and
    None has no [abs].  [n_classes] returns the sentinel.  Every class
    probability accessor passes its guard and, the labels of the frame
    being pairwise distinct, returns the reduction of the frequencies of
    the dependent column. *)
Theorem unchecked_prediction_type `{NumericLib} (data : DataFrame) p dep cats
    d cls :
  __init__ data (Some p) dep cats = Ok d →
  p ≠ "regression" → p ≠ "classification" →
  prediction_type d = p ∧
  (∀ m, m ∈ corr_accessors →
        m (Heap d cls) = (Raise AttributeError, Heap d cls)) ∧
  n_classes (Heap d cls) = (Ok NaN, Heap d cls) ∧
  (NoDup (columns data) →
   ∃ k, getitem data (dependent_col d) = Ok k ∧
     let probs := counts_div (value_counts (cells k)) (shape0 data) in
     (∀ r, class_prob_stat r (Heap d cls) =
             (Ok (series_reduce r (probs.*2)),
              Heap (with_class_probablities d (Some probs)) cls)) ∧
     (∀ m, m ∈ class_prob_accessors →
        ∃ r, m (Heap d cls) =
               (Ok (series_reduce r (probs.*2)),
                Heap (with_class_probablities d (Some probs)) cls))).
Proof.
  intros Hd Hreg Hcls.
  pose proof (init_fields _ _ _ _ _ Hd)
    as (Hres & Hdf & Hpt & _ & _ & _ & _ & Hprobs).
  simpl in Hpt. split_and!; [done| | |]; rewrite <- Hpt in Hreg, Hcls.
  - intros m [stat ->]%corr_accessors_shape.
    unfold corr_stat, _get_corr_with_dependent. run.
    rewrite decide_False by done. simpl. by rewrite decide_False.
  - unfold n_classes. run. by rewrite decide_False.
  - intros Hnd.
    assert (Hin : dependent_col d ∈ columns data).
    { unfold _set_dependent_col in Hres. destruct dep as [c|].
      - case_decide; [|done]. by injection Hres as <-.
      - destruct (last (columns data)) as [c|] eqn:Hlast; [|done].
        injection Hres as <-. by apply last_Some_elem_of. }
    destruct (getitem_NoDup _ _ Hnd Hin) as [k Hk].
    exists k. split; [done|]. intros probs.
    assert (Hstat : ∀ r, class_prob_stat r (Heap d cls) =
              (Ok (series_reduce r (probs.*2)),
               Heap (with_class_probablities d (Some probs)) cls)).
    { intros r. rewrite class_prob_stat_compute by done. run.
      rewrite (get_class_probablity_first _ k); simpl;
        [|done|by rewrite Hdf].
      by rewrite Hdf. }
    split; [done|].
    intros m [r ->]%class_prob_accessors_shape. by exists r.
Qed.

Lemma unchecked_prediction_type_witness :
  "ranking" ≠ "regression" ∧ "ranking" ≠ "classification" ∧
  NoDup (columns Examples.pets) ∧
  corr_with_dependent_abs_max (Heap Examples.pets_ranking ∅)
    = (Raise AttributeError, Heap Examples.pets_ranking ∅) ∧
  n_classes (Heap Examples.pets_ranking ∅)
    = (Ok NaN, Heap Examples.pets_ranking ∅) ∧
  (class_prob_min (Heap Examples.pets_ranking ∅)).1 = Ok (Num (1 # 3)).
Proof.
  assert (Hreg : "ranking" ≠ "regression") by done.
  assert (Hcls : "ranking" ≠ "classification") by done.
  assert (Hnd : NoDup (columns Examples.pets))
    by (apply (bool_decide_unpack _); by vm_compute).
  destruct (unchecked_prediction_type Examples.pets "ranking" None None
              Examples.pets_ranking ∅ init_pets_ranking Hreg Hcls)
    as (_ & Hcorr & Hn & Hprob).
  split_and!; [done..| | |].
  - apply Hcorr, list_elem_of_here.
  - exact Hn.
  - destruct (Hprob Hnd) as (k & Hk & Hm & _).
    vm_compute in Hk. injection Hk as <-.
    unfold class_prob_min. rewrite Hm. reflexivity.
Defined.

(** ** Symbol counts and the dict of the class *)

(** Two instances, one dict: once an instance has filled the dict, a
    symbol accessor of any other instance returns what it returns on the
    first one. *)
Lemma symbols_answer_from_first_instance (stat : list nat → result scalar)
    (d1 d2 : Dataset) cls :
  cls ≠ ∅ →
  (symbols_stat stat (Heap d2 cls)).1 = (symbols_stat stat (Heap d1 cls)).1.
Proof. intros Hne. by rewrite !symbols_stat_shared. Qed.

(** C3.  Two descriptors constructed independently, from the frame with the
    nominal column color (three symbols) and from the frame with the binary
    column size (two symbols).  Queried alone, the second one counts two
    symbols.  Queried after the first one, it finds the entry of color in
    the dict of the class, counts nothing of its own and answers three. *)
Theorem symbol_counts_leak_between_instances :
  (symbols_sum (Heap Examples.pets_descriptor ∅)).1 = Ok (Num 2) ∧
  (_get_symbols_per_category (Heap Examples.pets_descriptor ∅)).1
    = Ok {[ "size" := 2 ]} ∧
  ∃ h1,
    symbols_sum (Heap Examples.paints_descriptor ∅) = (Ok (Num 3), h1) ∧
    symbol_counts_dict h1 = {[ "color" := 3 ]} ∧
    (_get_symbols_per_category
       (Heap Examples.pets_descriptor (symbol_counts_dict h1))).1
      = Ok {[ "color" := 3 ]} ∧
    (symbols_sum (Heap Examples.pets_descriptor (symbol_counts_dict h1))).1
      = Ok (Num 3) ∧
    (symbols_mean (Heap Examples.pets_descriptor (symbol_counts_dict h1))).1
      = Ok (Num 3) ∧
    (symbols_min (Heap Examples.pets_descriptor (symbol_counts_dict h1))).1
      = Ok (Num 3) ∧
    (symbols_max (Heap Examples.pets_descriptor (symbol_counts_dict h1))).1
      = Ok (Num 3).
Proof.
  split; [by vm_compute|]. split; [by vm_compute|].
  eexists. split; [by vm_compute|]. simpl.
  split_and!; by vm_compute.
Qed.

(** C7.  A descriptor without categorical columns, queried after a
    descriptor with a nominal column of three symbols.  Queried alone, its
    symbol accessors return the sentinel.  Queried second, they find the
    dict of the class filled and return the statistics of the first
    descriptor. *)
Theorem symbols_of_no_categorical_after_another :
  categorical_cols Examples.points_descriptor = [] ∧
  symbols_mean (Heap Examples.points_descriptor ∅)
    = (Ok NaN, Heap Examples.points_descriptor ∅) ∧
  ∃ h1,
    symbols_sum (Heap Examples.paints_descriptor ∅) = (Ok (Num 3), h1) ∧
    (symbols_mean (Heap Examples.points_descriptor (symbol_counts_dict h1))).1
      = Ok (Num 3) ∧
    (symbols_sum (Heap Examples.points_descriptor (symbol_counts_dict h1))).1
      = Ok (Num 3) ∧
    (symbols_min (Heap Examples.points_descriptor (symbol_counts_dict h1))).1
      = Ok (Num 3) ∧
    (symbols_max (Heap Examples.points_descriptor (symbol_counts_dict h1))).1
      = Ok (Num 3).
Proof.
  split; [done|]. split; [by vm_compute|].
  eexists. split; [by vm_compute|]. simpl.
  split_and!; by vm_compute.
Qed.

(** X21.  The parts of the sentence on not-applicable statistics that hold
    on every descriptor: the guards on the prediction type, and the symbol
    accessors of the first instance that is queried.  Each returns the
    sentinel and writes nothing. *)
Lemma not_applicable_guards `{NumericLib} d cls :
  (prediction_type d = "classification" →
   ∀ m, m ∈ corr_accessors → m (Heap d cls) = (Ok (Scalar NaN), Heap d cls)) ∧
  (prediction_type d = "regression" →
   ∀ m, m ∈ class_prob_accessors → m (Heap d cls) = (Ok NaN, Heap d cls)) ∧
  (categorical_cols d = [] →
   ∀ m, m ∈ symbols_accessors → m (Heap d ∅) = (Ok NaN, Heap d ∅)).
Proof.
  split_and!.
  - intros Hpt m [stat ->]%corr_accessors_shape.
    by apply corr_stat_classification.
  - intros Hpt m [r ->]%class_prob_accessors_shape.
    by apply class_prob_stat_regression.
  - intros Hcs m [stat ->]%symbols_accessors_shape.
    by apply symbols_stat_no_categorical.
Qed.

(** ** Distinct values and counts *)

Lemma elem_of_unique v vs : v ∈ unique vs ↔ v ∈ vs.
Proof.
  unfold unique. by rewrite elem_of_reverse, elem_of_remove_dups, elem_of_reverse.
Qed.

Lemma NoDup_unique vs : NoDup (unique vs).
Proof. unfold unique. rewrite reverse_Permutation. apply NoDup_remove_dups. Qed.

Lemma elem_of_dropna v vs : v ∈ dropna vs ↔ v ∈ vs ∧ v ≠ VNaN.
Proof. unfold dropna. rewrite list_elem_of_filter. tauto. Qed.

Lemma count_cons v w vs :
  count v (w :: vs) = (if decide (w = v) then 1 else 0) + count v vs.
Proof. unfold count. rewrite filter_cons. by case_decide. Qed.

(** Each element of [u] at most once: the indicator of [w] sums to one
    over [u] when [w] is in [u], to zero otherwise. *)
Lemma sum_indicator (w : value) u :
  NoDup u →
  sum_list ((λ v, if decide (w = v) then 1 else 0) <$> u)
    = if decide (w ∈ u) then 1 else 0.
Proof.
  induction 1 as [|x u Hx Hnd IH]; [done|]. csimpl. rewrite IH.
  destruct (decide (w = x)) as [->|Hne].
  - rewrite (decide_False (P := x ∈ u)) by done.
    rewrite decide_True by apply list_elem_of_here. done.
  - destruct (decide (w ∈ u)) as [Hin|Hnin].
    + rewrite decide_True by by apply list_elem_of_further. done.
    + rewrite decide_False; [done|].
      intros [?|?]%elem_of_cons; done.
Qed.

Lemma sum_list_plus {A} (f g : A → nat) l :
  sum_list ((λ x, f x + g x) <$> l) = sum_list (f <$> l) + sum_list (g <$> l).
Proof. induction l as [|x l IH]; csimpl; [done|]. rewrite IH. lia. Qed.

(** The counts of the distinct values in [u] add up to the number of
    cells that hold one of them. *)
Lemma sum_counts u vs :
  NoDup u →
  sum_list ((λ v, count v vs) <$> u) = length (filter (λ x, x ∈ u) vs).
Proof.
  intros Hnd. induction vs as [|w vs IH].
  - unfold count. simpl. by rewrite sum_list_fmap_const, Nat.mul_0_r.
  - rewrite (Forall_fmap_ext_1 _
               (λ v, (if decide (w = v) then 1 else 0) + count v vs))
      by (apply Forall_forall; intros; apply count_cons).
    rewrite (sum_list_plus (λ v, if decide (w = v) then 1 else 0)
               (λ v, count v vs)).
    rewrite sum_indicator, IH by done. rewrite filter_cons.
    by case_decide.
Qed.

Lemma filter_ext_elem_of {A} (P Q : A → Prop)
    `{∀ x, Decision (P x)} `{∀ x, Decision (Q x)} (l : list A) :
  (∀ x, x ∈ l → P x ↔ Q x) → filter P l = filter Q l.
Proof.
  induction l as [|x l IH]; [done|]. intros HPQ.
  rewrite !filter_cons, IH by (intros; by apply HPQ, list_elem_of_further).
  pose proof (HPQ x (list_elem_of_here _ _)).
  repeat case_decide; tauto.
Qed.

Lemma sum_value_counts vs :
  sum_list ((value_counts vs).*2) = length (dropna vs).
Proof.
  unfold value_counts. rewrite <- list_fmap_compose.
  change (sum_list ((λ v, count v vs) <$> unique (dropna vs))
            = length (dropna vs)).
  rewrite sum_counts by apply NoDup_unique.
  unfold dropna at 2. f_equal. apply filter_ext_elem_of.
  intros x Hx. rewrite elem_of_unique, elem_of_dropna. tauto.
Qed.

(** ** Class probabilities add up *)

Lemma Qplus_same_den (a b : Z) (p : positive) :
  ((a # p) + (b # p) == (a + b # p))%Q.
Proof. unfold Qeq, Qplus. simpl. nia. Qed.

Lemma true_div_pos c n : 0 < n → true_div c n = Num (Z.of_nat c # Pos.of_nat n).
Proof. by destruct n; [lia|]. Qed.

Lemma scalar_sum_counts_div (counts : list (value * nat)) n :
  0 < n →
  ∃ q, scalar_sum ((counts_div counts n).*2) = Some q ∧
       (q == (Z.of_nat (sum_list (counts.*2)) # Pos.of_nat n))%Q.
Proof.
  intros Hn. induction counts as [|[v c] counts (q & Hq & Heq)]; csimpl.
  - exists 0%Q. split; [done|]. by unfold Qeq.
  - rewrite true_div_pos by done. rewrite Hq.
    eexists. split; [done|]. rewrite Heq, Qplus_same_den.
    by rewrite Nat2Z.inj_add.
Qed.

Lemma dropna_no_missing vs : VNaN ∉ vs → dropna vs = vs.
Proof.
  intros Hno. unfold dropna. induction vs as [|v vs IH]; [done|].
  apply not_elem_of_cons in Hno as [Hne Hno].
  rewrite filter_cons, decide_True by done. by rewrite IH.
Qed.

Lemma Q_ratio_one n : 0 < n → (Z.of_nat n # Pos.of_nat n == 1)%Q.
Proof. intros Hn. unfold Qeq. simpl. lia. Qed.

(** C8, counterexample.  The class probabilities of the frame of tickets:
    the label column holds one label and one missing cell, the missing
    marker has no entry and the only entry is 1/2. *)
Lemma class_probabilities_of_tickets_not_as_stated :
  prediction_type Examples.tickets_descriptor = "classification" ∧
  ¬ class_probabilities_stated Examples.tickets_descriptor.
Proof.
  split; [done|]. intros Hstated.
  destruct (Hstated ∅ (Column "label" object [VStr "spam"; VNaN]) eq_refl)
    as (probs & h' & Hget & _ & q & Hsum & Hone).
  vm_compute in Hget. injection Hget as <- <-.
  vm_compute in Hsum. injection Hsum as <-.
  by vm_compute in Hone.
Qed.

(** C8, amended.  On a descriptor as constructed, whose dependent label
    selects one column of a frame with aligned rows, at least one: the class
    probabilities hold one entry for each distinct non-missing value of the
    dependent column, its number of occurrences over the number of rows;
    the entries sum to the share of rows whose dependent cell is not
    missing, hence to one when no dependent cell is missing.  The division
    is the exact one of the rationals. *)
Theorem class_probabilities_sum (data : DataFrame) pt dep cats d cls k :
  __init__ data pt dep cats = Ok d →
  getitem data (dependent_col d) = Ok k →
  aligned data →
  0 < shape0 data →
  ∃ probs h',
    _get_class_probablity (Heap d cls) = (Ok probs, h') ∧
    class_probablities (self h') = Some probs ∧
    NoDup (probs.*1) ∧
    (∀ v x, (v, x) ∈ probs ↔
            v ∈ cells k ∧ v ≠ VNaN ∧
            x = true_div (count v (cells k)) (shape0 data)) ∧
    ∃ q, scalar_sum (probs.*2) = Some q ∧
         (q == (Z.of_nat (length (dropna (cells k)))
                 # Pos.of_nat (shape0 data)))%Q ∧
         (VNaN ∉ cells k → (q == 1)%Q).
Proof.
  intros Hd Hk Hal Hrows.
  assert (Hlen : length (cells k) = shape0 data).
  { apply getitem_Ok_inv in Hk as [Hin _].
    unfold aligned in Hal. rewrite Forall_forall in Hal. by apply Hal. }
  pose proof (init_fields _ _ _ _ _ Hd)
    as (_ & Hdf & _ & _ & _ & _ & _ & Hprobs).
  pose proof (get_class_probablity_first (Heap d cls) k) as Hget.
  simpl in Hget. rewrite Hdf in Hget. specialize (Hget Hprobs Hk).
  simpl in Hget. eexists _, _. split; [exact Hget|]. simpl.
  split; [done|]. split_and!.
  - unfold counts_div, value_counts. rewrite <- !list_fmap_compose.
    rewrite (Forall_fmap_ext_1 _ id) by (by apply Forall_forall).
    rewrite list_fmap_id. apply NoDup_unique.
  - intros v x. unfold counts_div, value_counts.
    rewrite <- list_fmap_compose, list_elem_of_fmap. simpl. split.
    + intros (w & [= -> ->] & Hw).
      apply elem_of_unique, elem_of_dropna in Hw as [? ?]. done.
    + intros (Hv & Hne & ->). exists v. split; [done|].
      by apply elem_of_unique, elem_of_dropna.
  - destruct (scalar_sum_counts_div (value_counts (cells k)) (shape0 data) Hrows)
      as (q & Hq & Heq).
    rewrite sum_value_counts in Heq.
    exists q. split_and!; [done..|].
    intros Hno. rewrite Heq, dropna_no_missing, Hlen by done.
    by apply Q_ratio_one.
Qed.

Lemma class_probabilities_sum_witness :
  aligned Examples.pets ∧ 0 < shape0 Examples.pets ∧
  ∃ probs,
    (_get_class_probablity (Heap Examples.pets_descriptor ∅)).1 = Ok probs ∧
    probs = [(VStr "cat", Num (1 # 3)); (VStr "dog", Num (2 # 3))] ∧
    ∃ q, scalar_sum (probs.*2) = Some q ∧ (q == 1)%Q.
Proof.
  destruct (class_probabilities_sum Examples.pets None None None
              Examples.pets_descriptor ∅
              (Column "label" object [VStr "cat"; VStr "dog"; VStr "dog"])
              init_pets eq_refl)
    as (probs & h' & Hget & _ & _ & _ & q & Hq & _ & Hone);
    [by repeat constructor|simpl; lia|].
  split; [by repeat constructor|]. split; [simpl; lia|].
  exists probs. rewrite Hget. split; [done|].
  vm_compute in Hget. injection Hget as <- _.
  split; [done|].
  exists q. split; [done|]. apply Hone.
  apply (bool_decide_unpack _). by vm_compute.
Defined.

(** ** The encoding of one column *)

Lemma insert_sorted_Permutation v vs : insert_sorted v vs ≡ₚ v :: vs.
Proof.
  induction vs as [|w ws IH]; simpl; [done|].
  destruct (value_leb v w); [done|]. rewrite IH. apply Permutation_swap.
Qed.

Lemma sorted_Permutation vs : sorted vs ≡ₚ vs.
Proof.
  unfold sorted. induction vs as [|v vs IH]; simpl; [done|].
  by rewrite insert_sorted_Permutation, IH.
Qed.

Lemma levels_Permutation k : levels k ≡ₚ unique (dropna (cells k)).
Proof. apply sorted_Permutation. Qed.

Lemma NoDup_levels k : NoDup (levels k).
Proof. rewrite levels_Permutation. apply NoDup_unique. Qed.

Lemma elem_of_levels v k : v ∈ levels k ↔ v ∈ cells k ∧ v ≠ VNaN.
Proof. by rewrite levels_Permutation, elem_of_unique, elem_of_dropna. Qed.

Lemma length_levels k : length (levels k) = n_symbols k.
Proof. unfold n_symbols. by rewrite levels_Permutation. Qed.

Lemma length_classes vs :
  length (LabelEncoder_classes vs) = length (unique vs).
Proof. unfold LabelEncoder_classes. by rewrite sorted_Permutation. Qed.

Lemma elem_of_classes v vs : v ∈ LabelEncoder_classes vs ↔ v ∈ vs.
Proof.
  unfold LabelEncoder_classes. by rewrite sorted_Permutation, elem_of_unique.
Qed.

Lemma index_of_lt v vs : v ∈ vs → index_of v vs < length vs.
Proof.
  induction vs as [|w ws IH]; simpl; [by intros ?%elem_of_nil|].
  intros Hin. case_decide; [lia|].
  apply elem_of_cons in Hin as [->|Hin]; [done|]. apply IH in Hin. lia.
Qed.

Lemma index_of_inj v w vs :
  v ∈ vs → index_of v vs = index_of w vs → v = w.
Proof.
  induction vs as [|x xs IH]; simpl; [by intros ?%elem_of_nil|].
  intros Hin. repeat case_decide; subst; try done.
  intros [= Heq]. apply elem_of_cons in Hin as [->|Hin]; [done|]. by apply IH.
Qed.

Lemma length_append (s t : string) :
  String.length (s +:+ t) = String.length s + String.length t.
Proof. induction s as [|a s IH]; simpl; [done|]. by rewrite IH. Qed.

(** The label of an indicator column is longer than the label of the
    column it comes from. *)
Lemma indicator_label_ne k lv : label (indicator k lv) ≠ label k.
Proof.
  simpl. intros Heq. apply (f_equal String.length) in Heq.
  rewrite !length_append in Heq. simpl in Heq. lia.
Qed.

Lemma filter_complement_length (df : DataFrame) col :
  length (filter (λ c, label c ≠ col) df)
    + length (filter (λ c, label c = col) df) = length df.
Proof.
  rewrite <- (filter_app_complement (λ c, label c = col) df) at 3.
  rewrite length_app. lia.
Qed.

Lemma getitem_filter (df : DataFrame) col k :
  getitem df col = Ok k → filter (λ c, label c = col) df = [k].
Proof.
  unfold getitem. destruct (filter _ df) as [|k' [|]]; [done| |done].
  by intros [= ->].
Qed.

Lemma filter_setitem (df : DataFrame) col ty vs :
  filter (λ c, label c = col) (setitem df col ty vs)
    = (λ _, Column col ty vs) <$> filter (λ c, label c = col) df.
Proof.
  unfold setitem. induction df as [|a df IH]; [done|]. csimpl.
  rewrite !filter_cons. destruct (decide (label a = col)) as [Ha|Ha]; simpl.
  - rewrite decide_True by done. csimpl. by rewrite IH.
  - rewrite decide_False by done. by rewrite IH.
Qed.

Lemma columns_setitem (df : DataFrame) col ty vs :
  columns (setitem df col ty vs) = columns df.
Proof.
  unfold columns, setitem. rewrite <- list_fmap_compose.
  apply Forall_fmap_ext_1, Forall_forall. intros c _. simpl.
  by case_decide.
Qed.

(** The indicator columns of a row add up to one when its cell holds a
    value and to zero when its cell is missing. *)
Lemma row_sum_indicators k i v (ls : list value) :
  cells k !! i = Some v → NoDup ls →
  row_sum (indicator k <$> ls) i = if decide (v ∈ ls) then 1%Z else 0%Z.
Proof.
  intros Hi. unfold row_sum. induction 1 as [|x ls Hx Hnd IH]; [done|].
  csimpl. rewrite IH. rewrite list_lookup_fmap, Hi. simpl.
  destruct (decide (v = x)) as [->|Hne]; simpl.
  - rewrite (decide_False (P := x ∈ ls)) by done.
    by rewrite decide_True by apply list_elem_of_here.
  - destruct (decide (v ∈ ls)) as [Hin|Hnin].
    + by rewrite decide_True by by apply list_elem_of_further.
    + rewrite decide_False; [done|]. by intros [?|?]%elem_of_cons.
Qed.

Lemma get_dummies_expanded (df : DataFrame) k :
  getitem df (label k) = Ok k → expanded df k (get_dummies df k).
Proof.
  intros Hk. exists (dummies k). unfold get_dummies, dummies.
  split_and!.
  - done.
  - unfold columns. rewrite fmap_app, elem_of_app, !list_elem_of_fmap.
    intros [(c & Hc & Hin)|(c & Hc & Hin)].
    + by apply list_elem_of_filter in Hin as [? _].
    + apply list_elem_of_fmap in Hin as (lv & -> & _).
      by apply (indicator_label_ne k lv).
  - by rewrite length_fmap, length_levels.
  - unfold shape1. rewrite length_app, length_fmap, length_levels.
    pose proof (filter_complement_length df (label k)) as Hlen.
    rewrite (getitem_filter _ _ _ Hk) in Hlen. simpl in Hlen. lia.
  - exists (levels k). split; [apply levels_Permutation|].
    unfold columns. by rewrite <- list_fmap_compose.
  - apply Forall_fmap, Forall_forall. intros lv _. simpl.
    split_and!; [done| |by rewrite length_fmap].
    apply Forall_fmap, Forall_forall. intros v _. simpl.
    case_decide; auto.
  - intros i v Hi. rewrite (row_sum_indicators k i v) by (done || apply NoDup_levels).
    assert (Hin : v ∈ cells k) by by eapply list_elem_of_lookup_2.
    destruct (decide (v = VNaN)) as [->|Hne].
    + rewrite decide_False; [done|]. rewrite elem_of_levels. tauto.
    + rewrite decide_True; [done|]. by rewrite elem_of_levels.
Qed.

Lemma fit_transform_label_encoded (df : DataFrame) k :
  getitem df (label k) = Ok k →
  length (unique (cells k)) ≤ 2 →
  label_encoded df k
    (setitem df (label k) numeric (LabelEncoder_fit_transform (cells k))).
Proof.
  intros Hk Hbin. exists (LabelEncoder_fit_transform (cells k)).
  unfold LabelEncoder_fit_transform. split_and!.
  - done.
  - apply columns_setitem.
  - unfold shape1, setitem. by rewrite length_fmap.
  - unfold getitem. by rewrite filter_setitem, (getitem_filter _ _ _ Hk).
  - by rewrite length_fmap.
  - apply Forall_fmap, Forall_forall. intros v Hv. simpl.
    pose proof (index_of_lt v (LabelEncoder_classes (cells k))) as Hlt.
    rewrite length_classes, elem_of_classes in Hlt. specialize (Hlt Hv).
    destruct (index_of v _) as [|[|n]]; [auto..|lia].
  - intros i j v w Hi Hj. rewrite !list_lookup_fmap, Hi, Hj. simpl.
    split; [|by intros ->].
    intros [= Heq%Nat2Z.inj]. apply index_of_inj in Heq; [done|].
    apply elem_of_classes. by eapply list_elem_of_lookup_2.
Qed.

(** The two counts of distinct values differ by the missing marker. *)
Lemma length_unique_n_symbols k :
  length (unique (cells k))
    = n_symbols k + (if decide (VNaN ∈ cells k) then 1 else 0).
Proof.
  unfold n_symbols.
  assert (Hperm : unique (cells k) ≡ₚ
            unique (dropna (cells k))
              ++ (if decide (VNaN ∈ cells k) then [VNaN] else [])).
  { apply NoDup_Permutation; [apply NoDup_unique| |].
    - apply NoDup_app. split_and!; [apply NoDup_unique| |].
      + intros v [_ Hv]%elem_of_unique%elem_of_dropna.
        case_decide; [|by intros ?%elem_of_nil].
        by intros ->%list_elem_of_singleton.
      + case_decide; [apply NoDup_singleton|apply NoDup_nil_2].
    - intros v. rewrite elem_of_app, !elem_of_unique, elem_of_dropna.
      destruct (decide (v = VNaN)) as [->|Hne].
      + case_decide; [|rewrite elem_of_nil; tauto].
        rewrite list_elem_of_singleton. tauto.
      + case_decide;
          [rewrite list_elem_of_singleton|rewrite elem_of_nil]; tauto. }
  rewrite Hperm, length_app. by case_decide.
Qed.

(** C4, counterexample.  The frame of the survey: the column sex has two
    symbols and a missing cell; it is expanded into two indicator columns,
    and the frame has one column more than before. *)
Lemma encoding_of_survey_not_as_stated :
  ¬ shape_law_stated Examples.survey "sex".
Proof.
  intros Hstated.
  destruct (Hstated (Column "sex" object [VStr "m"; VStr "f"; VNaN; VStr "f"])
              eq_refl) as (enc & Henc & Hlaw).
  vm_compute in Henc. injection Henc as <-.
  rewrite decide_False in Hlaw by (vm_compute; lia).
  destruct Hlaw as (codes & _ & _ & Hshape & _).
  by vm_compute in Hshape.
Qed.

(** C4, amended.  The encoding of a column that its label selects.  The
    branch is taken on the number of distinct values of the column, the
    missing marker counting as one of them.  Above two, the column is
    removed and one indicator column is appended for each distinct
    non-missing value, named by the label of the column, an underscore and
    the value; the indicators of a row sum to one, to zero when the cell
    of the row is missing.  Otherwise the frame keeps its columns and the
    cells of the column become integer codes among 0 and 1, one code for
    each value.  So a column with more than two distinct non-missing
    values is expanded, and a column with at most two and no missing cell
    is label encoded. *)
Theorem encoding_shape_law (df : DataFrame) col k :
  getitem df col = Ok k →
  ∃ enc, encode_column df col = Ok enc ∧
    (if decide (2 < length (unique (cells k)))
     then expanded df k enc else label_encoded df k enc) ∧
    (2 < n_symbols k → expanded df k enc) ∧
    (n_symbols k ≤ 2 → VNaN ∉ cells k → label_encoded df k enc).
Proof.
  intros Hk. pose proof (getitem_Ok_inv _ _ _ Hk) as [_ <-].
  pose proof (length_unique_n_symbols k) as Hcount.
  unfold encode_column. rewrite Hk. simpl.
  destruct (decide (length (unique (cells k)) ≤ 2)) as [Hle|Hgt].
  - eexists. split; [done|].
    pose proof (fit_transform_label_encoded df k Hk Hle) as Hlab.
    split_and!; [by rewrite decide_False by lia|lia|done].
  - eexists. split; [done|].
    pose proof (get_dummies_expanded df k Hk) as Hexp.
    split_and!; [by rewrite decide_True by lia|done|].
    intros Hsym Hno. rewrite decide_False in Hcount by done. lia.
Qed.

Lemma encoding_shape_law_witness :
  (∃ enc, encode_column Examples.paints "color" = Ok enc ∧
          columns enc = ["x"; "y"; "color_blue"; "color_green"; "color_red"]) ∧
  (∃ enc, encode_column Examples.pets "size" = Ok enc ∧
          columns enc = ["size"; "label"] ∧
          getitem enc "size"
            = Ok (Column "size" numeric [VInt 1; VInt 0; VInt 0])).
Proof.
  split.
  - destruct (encoding_shape_law Examples.paints "color"
                (Column "color" object
                   [VStr "red"; VStr "blue"; VStr "red"; VStr "green"])
                eq_refl) as (enc & Henc & _).
    exists enc. split; [done|].
    vm_compute in Henc. by injection Henc as <-.
  - destruct (encoding_shape_law Examples.pets "size"
                (Column "size" object [VStr "small"; VStr "big"; VStr "big"])
                eq_refl) as (enc & Henc & _).
    exists enc. split; [done|].
    vm_compute in Henc. by injection Henc as <-.
Defined.

(** The encoding step of the constructor runs the body once for each
    categorical column, on the frame the previous columns left. *)
Lemma encoder_cons (df : DataFrame) col rest :
  _categorical_column_encoder df (col :: rest)
    = df' ← encode_column df col; _categorical_column_encoder df' rest.
Proof. done. Qed.

Lemma encoder_single (df : DataFrame) col :
  _categorical_column_encoder df [col] = encode_column df col.
Proof.
  rewrite encoder_cons. by destruct (encode_column df col).
Qed.

(** * Further properties of the descriptor *)

(** ** Errors of the selection and of the encoding step *)

Lemma getitem_KeyError (df : DataFrame) col :
  getitem df col = Raise KeyError ↔ col ∉ columns df.
Proof.
  split.
  - unfold getitem. destruct (filter _ df) as [|k [|]] eqn:Hf; [|done..].
    intros _ (c & -> & Hc)%list_elem_of_fmap.
    assert (Hin : c ∈ filter (λ c', label c' = label c) df)
      by by apply list_elem_of_filter.
    rewrite Hf in Hin. by apply elem_of_nil in Hin.
  - intros Hnin. unfold getitem. by rewrite filter_label_nil.
Qed.

Lemma getitem_raises (df : DataFrame) col e :
  getitem df col = Raise e →
  (e = KeyError ∧ col ∉ columns df) ∨ (e = AttributeError ∧ col ∈ columns df).
Proof.
  intros Hget. destruct (decide (col ∈ columns df)) as [Hin|Hnin].
  - right. split; [|done]. unfold getitem in Hget.
    destruct (filter _ df) as [|k [|]] eqn:Hf; [|done|by injection Hget].
    exfalso. apply (proj1 (getitem_KeyError df col)); [|done].
    unfold getitem. by rewrite Hf.
  - left. split; [|done]. apply getitem_KeyError in Hnin. congruence.
Qed.

Lemma encode_column_Ok (df : DataFrame) col enc :
  encode_column df col = Ok enc →
  ∃ k, getitem df col = Ok k ∧ label k = col ∧ k ∈ df ∧
    ((length (unique (cells k)) ≤ 2 ∧
      enc = setitem df col numeric (LabelEncoder_fit_transform (cells k))) ∨
     (2 < length (unique (cells k)) ∧ enc = get_dummies df k)).
Proof.
  unfold encode_column. destruct (getitem df col) as [k|e] eqn:Hk; [|done].
  simpl. pose proof (getitem_Ok_inv _ _ _ Hk) as [Hin Hlab].
  case_decide; intros [= <-]; exists k; split_and!; try done.
  - by left.
  - right. split; [lia|done].
Qed.

Lemma encode_column_raises (df : DataFrame) col e :
  encode_column df col = Raise e →
  (e = KeyError ∧ col ∉ columns df) ∨ (e = AttributeError ∧ col ∈ columns df).
Proof.
  unfold encode_column. destruct (getitem df col) as [k|e'] eqn:Hk; simpl.
  - by case_decide.
  - intros [= <-]. by apply getitem_raises.
Qed.

Lemma encode_columns_raises cats (df : DataFrame) e :
  encode_columns cats df = Raise e → e = KeyError ∨ e = AttributeError.
Proof.
  revert df. induction cats as [|col rest IH]; intros df; simpl; [done|].
  destruct (encode_column df col) as [df'|e'] eqn:Hcol; simpl.
  - apply IH.
  - intros [= <-]. apply encode_column_raises in Hcol. tauto.
Qed.

Lemma explicit_dependent_col_absent (df : DataFrame) pt name cats :
  name ∉ columns df → __init__ df pt (Some name) cats = Raise ValueError.
Proof.
  intros Hnin. unfold __init__, _set_dependent_col. by rewrite decide_False.
Qed.

(** X1.  What construction raises.  ValueError exactly when an explicit
    dependent column is not a label of the frame; IndexError exactly when
    no dependent column is given and the frame has no column. *)
Theorem construction_errors (df : DataFrame) pt dep cats :
  (__init__ df pt dep cats = Raise ValueError ↔
     ∃ name, dep = Some name ∧ name ∉ columns df) ∧
  (__init__ df pt dep cats = Raise IndexError ↔ dep = None ∧ df = []).
Proof.
  assert (Henc : ∀ c e, _set_dependent_col df dep = Ok c →
            __init__ df pt dep cats = Raise e →
            e = KeyError ∨ e = AttributeError).
  { intros c e Hc He. apply init_raises in He as [He|(c' & _ & He)];
      [congruence|]. by apply encode_columns_raises in He. }
  split; split.
  - intros He. unfold _set_dependent_col in Henc. destruct dep as [name|].
    + exists name. split; [done|]. intros Hin.
      rewrite decide_True in Henc by done.
      by destruct (Henc name _ eq_refl He).
    + destruct (last (columns df)) as [c|] eqn:Hlast.
      * by destruct (Henc c _ eq_refl He).
      * unfold __init__, _set_dependent_col in He. by rewrite Hlast in He.
  - intros (name & -> & Hnin).
    by apply (explicit_dependent_col_absent df pt name cats).
  - intros He. unfold _set_dependent_col in Henc. destruct dep as [name|].
    + case_decide.
      * by destruct (Henc name _ eq_refl He).
      * unfold __init__, _set_dependent_col in He.
        by rewrite decide_False in He.
    + split; [done|]. destruct (last (columns df)) as [c|] eqn:Hlast.
      * by destruct (Henc c _ eq_refl He).
      * apply last_None in Hlast. by destruct df.
  - by intros [-> ->].
Qed.

(** ** What the encoding step keeps *)

Lemma encode_column_rows n (df : DataFrame) col enc :
  encode_column df col = Ok enc →
  Forall (λ c, length (cells c) = n) df →
  Forall (λ c, length (cells c) = n) enc.
Proof.
  intros (k & _ & _ & Hin & [[_ ->]|[_ ->]])%encode_column_Ok Hall.
  - unfold setitem. apply Forall_fmap, Forall_forall. intros c Hc. simpl.
    rewrite Forall_forall in Hall. case_decide; simpl; [|by apply Hall].
    unfold LabelEncoder_fit_transform. rewrite length_fmap. by apply Hall.
  - unfold get_dummies, dummies. apply Forall_app. split.
    + apply Forall_forall. intros c [_ Hc]%list_elem_of_filter.
      rewrite Forall_forall in Hall. by apply Hall.
    + apply Forall_fmap, Forall_forall. intros lv _. simpl.
      rewrite length_fmap. rewrite Forall_forall in Hall. by apply Hall.
Qed.

Lemma encode_column_keeps (df : DataFrame) col enc c :
  encode_column df col = Ok enc → c ∈ df → label c ≠ col → c ∈ enc.
Proof.
  intros (k & _ & Hlab & _ & [[_ ->]|[_ ->]])%encode_column_Ok Hc Hne.
  - unfold setitem. apply list_elem_of_fmap. exists c.
    by rewrite decide_False.
  - unfold get_dummies. apply elem_of_app. left.
    apply list_elem_of_filter. split; [congruence|done].
Qed.

Lemma encode_column_object (df : DataFrame) col enc c :
  encode_column df col = Ok enc → c ∈ enc → kind c = object →
  c ∈ df ∧ label c ≠ col.
Proof.
  intros (k & _ & Hlab & _ & [[_ ->]|[_ ->]])%encode_column_Ok Hc Hobj.
  - unfold setitem in Hc. apply list_elem_of_fmap in Hc as (c0 & -> & Hc0).
    case_decide; [done|]. done.
  - unfold get_dummies, dummies in Hc. apply elem_of_app in Hc as [Hc|Hc].
    + apply list_elem_of_filter in Hc as [Hne Hc]. split; [done|congruence].
    + by apply list_elem_of_fmap in Hc as (lv & -> & _).
Qed.

(** X2.  The encoding step keeps the rows: when every column of the frame
    has [n] cells, every column of the encoded frame of a constructed
    descriptor has [n] cells. *)
Theorem encoded_frame_keeps_rows n (df : DataFrame) pt dep cats d :
  __init__ df pt dep cats = Ok d →
  Forall (λ c, length (cells c) = n) df →
  Forall (λ c, length (cells c) = n) (df_encoded d).
Proof.
  intros Hd. apply init_fields in Hd as (_ & _ & _ & _ & _ & Henc & _).
  unfold _categorical_column_encoder in Henc.
  revert Henc. generalize (df_encoded d). generalize (categorical_cols d).
  intros cs. revert df. induction cs as [|col rest IH]; intros df enc; simpl.
  - by intros [= <-].
  - destruct (encode_column df col) as [df'|e] eqn:Hcol; [|done]. simpl.
    intros Hrest Hall. eapply IH; [done|]. by eapply encode_column_rows.
Qed.

Lemma encoded_frame_keeps_rows_witness :
  Forall (λ c, length (cells c) = 4) Examples.paints ∧
  Forall (λ c, length (cells c) = 4) (df_encoded Examples.paints_descriptor).
Proof.
  assert (Hall : Forall (λ c, length (cells c) = 4) Examples.paints)
    by by repeat constructor.
  split; [done|].
  exact (encoded_frame_keeps_rows 4 _ _ _ _ _ init_paints Hall).
Defined.

(** X3.  The columns of the encoded frame that are not numeric are the
    columns of the frame that are not numeric and not listed as
    categorical: the step leaves those as they are, and turns every listed
    column into numeric columns. *)
Theorem encoded_frame_object_columns (df : DataFrame) pt dep cats d c :
  __init__ df pt dep cats = Ok d →
  (c ∈ df_encoded d ∧ kind c = object) ↔
  (c ∈ df ∧ kind c = object ∧ label c ∉ categorical_cols d).
Proof.
  intros Hd. apply init_fields in Hd as (_ & _ & _ & _ & _ & Henc & _).
  unfold _categorical_column_encoder in Henc.
  revert Henc. generalize (df_encoded d). generalize (categorical_cols d).
  intros cs. revert df. induction cs as [|col rest IH]; intros df enc; simpl.
  - intros [= <-]. split; [intros [? ?]|intros (? & ? & _)]; split_and!; try done.
    by intros ?%elem_of_nil.
  - destruct (encode_column df col) as [df'|e] eqn:Hcol; [|done]. simpl.
    intros Hrest. rewrite (IH _ _ Hrest), not_elem_of_cons. split.
    + intros (Hc & Hobj & Hnin).
      destruct (encode_column_object _ _ _ _ Hcol Hc Hobj). done.
    + intros (Hc & Hobj & Hne & Hnin). split_and!; [|done..].
      by eapply encode_column_keeps.
Qed.

Lemma encoded_frame_object_columns_witness :
  let c := Column "label" object [VStr "cat"; VStr "dog"; VStr "dog"] in
  (c ∈ df_encoded Examples.pets_descriptor ∧ kind c = object) ↔
  (c ∈ Examples.pets ∧ kind c = object ∧
   label c ∉ categorical_cols Examples.pets_descriptor).
Proof.
  intros c.
  exact (encoded_frame_object_columns _ _ _ _ _ c init_pets).
Defined.

(** In a frame whose labels are pairwise distinct, a label is among the
    labels of the numeric columns exactly when its column is numeric. *)
Lemma numeric_label_NoDup (df : DataFrame) c :
  NoDup (columns df) → c ∈ df →
  label c ∈ columns (_get_numeric_data df) ↔ kind c = numeric.
Proof.
  intros Hnd Hc. unfold columns, _get_numeric_data. split.
  - intros (c' & Hlab & Hc')%list_elem_of_fmap.
    apply list_elem_of_filter in Hc' as [Hnum Hc'].
    assert (c = c'); [|by subst].
    apply list_elem_of_lookup in Hc as [i Hi].
    apply list_elem_of_lookup in Hc' as [j Hj].
    assert (i = j); [|congruence].
    eapply (NoDup_lookup (columns df)); [done| |].
    + unfold columns. by rewrite list_lookup_fmap, Hi.
    + unfold columns. rewrite list_lookup_fmap, Hj. simpl. by rewrite Hlab.
  - intros Hnum. apply list_elem_of_fmap. exists c. split; [done|].
    by apply list_elem_of_filter.
Qed.

(** X4.  With the categorical columns inferred, on a frame with pairwise
    distinct labels, every column of the encoded frame other than the
    dependent one is numeric: the correlations cover all of them. *)
Theorem encoded_frame_numeric (df : DataFrame) pt dep d c :
  __init__ df pt dep None = Ok d →
  NoDup (columns df) →
  c ∈ df_encoded d → label c ≠ dependent_col d → kind c = numeric.
Proof.
  intros Hd Hnd Hc Hne. destruct (kind c) eqn:Hkind; [done|exfalso].
  pose proof (proj1 (encoded_frame_object_columns _ _ _ _ _ c Hd)
                (conj Hc Hkind)) as (Hin & _ & Hnin).
  apply init_fields in Hd as (_ & _ & _ & Hcats & _).
  apply Hnin. rewrite Hcats. simpl. apply elem_of_set_difference. split.
  - apply list_elem_of_fmap. by exists c.
  - rewrite elem_of_app, list_elem_of_singleton.
    intros [Hnum|Hdep]; [|done].
    apply (numeric_label_NoDup df c Hnd Hin) in Hnum. congruence.
Qed.

Lemma encoded_frame_numeric_witness :
  NoDup (columns Examples.paints) ∧
  Forall (λ c, label c ≠ "y" → kind c = numeric)
    (df_encoded Examples.paints_descriptor).
Proof.
  assert (Hnd : NoDup (columns Examples.paints))
    by (apply (bool_decide_unpack _); by vm_compute).
  split; [done|]. apply Forall_forall. intros c Hc Hne.
  exact (encoded_frame_numeric _ _ _ _ c init_paints Hnd Hc Hne).
Defined.

(** X5.  A categorical column listed first that is not a label of the
    frame makes construction raise KeyError. *)
Theorem absent_categorical_col_raises (df : DataFrame) pt dep c col rest :
  _set_dependent_col df dep = Ok c →
  col ∉ columns df →
  __init__ df pt dep (Some (col :: rest)) = Raise KeyError.
Proof.
  intros Hc Hnin. rewrite (init_resolved _ _ _ _ c Hc). simpl.
  unfold _categorical_column_encoder. simpl. unfold encode_column.
  apply getitem_KeyError in Hnin. by rewrite Hnin.
Qed.

Lemma absent_categorical_col_raises_witness :
  _set_dependent_col Examples.pets None = Ok "label" ∧
  ("colour" ∉ columns Examples.pets) ∧
  __init__ Examples.pets None None (Some ["colour"; "size"]) = Raise KeyError.
Proof.
  assert (Hnin : "colour" ∉ columns Examples.pets)
    by (apply (bool_decide_unpack _); by vm_compute).
  split_and!; [done..|].
  exact (absent_categorical_col_raises Examples.pets None None "label"
           "colour" ["size"] eq_refl Hnin).
Defined.

(** X6.  A categorical column with more than two distinct values that is
    listed twice in a row: the first pass replaces it by its indicator
    columns, the second pass does not find it and raises KeyError. *)
Theorem expanded_col_listed_twice_raises (df : DataFrame) col k rest :
  getitem df col = Ok k →
  2 < length (unique (cells k)) →
  _categorical_column_encoder df (col :: col :: rest) = Raise KeyError.
Proof.
  intros Hk Hmany. pose proof (getitem_Ok_inv _ _ _ Hk) as [_ <-].
  assert (Hfirst : encode_column df (label k) = Ok (get_dummies df k)).
  { unfold encode_column. rewrite Hk. simpl. by rewrite decide_False by lia. }
  assert (Hsecond : encode_column (get_dummies df k) (label k) = Raise KeyError).
  { destruct (get_dummies_expanded df k Hk) as (ind & _ & Hgone & _).
    unfold encode_column. apply getitem_KeyError in Hgone. by rewrite Hgone. }
  unfold _categorical_column_encoder. simpl. rewrite Hfirst. simpl.
  by rewrite Hsecond.
Qed.

Lemma expanded_col_listed_twice_raises_witness :
  _categorical_column_encoder Examples.paints ["color"; "color"]
    = Raise KeyError.
Proof.
  apply (expanded_col_listed_twice_raises Examples.paints "color"
           (Column "color" object
              [VStr "red"; VStr "blue"; VStr "red"; VStr "green"]) []).
  - reflexivity.
  - vm_compute. lia.
Defined.

(** ** Categorical and numerical columns *)

(** X7.  The categorical columns inferred at construction are the labels
    of the frame that are neither the label of a numeric column nor the
    dependent label, each listed once. *)
Theorem inferred_categorical_cols (df : DataFrame) pt dep d :
  __init__ df pt dep None = Ok d →
  NoDup (categorical_cols d) ∧
  ∀ c, c ∈ categorical_cols d ↔
       c ∈ columns df ∧ (c ∉ columns (_get_numeric_data df)) ∧
       c ≠ dependent_col d.
Proof.
  intros Hd. apply init_fields in Hd as (_ & _ & _ & -> & _). simpl. split.
  - apply NoDup_list_difference, NoDup_remove_dups.
  - intros c. rewrite elem_of_set_difference, not_elem_of_app,
      list_elem_of_singleton. tauto.
Qed.

Lemma inferred_categorical_cols_witness :
  NoDup (categorical_cols Examples.paints_descriptor) ∧
  ∀ c, c ∈ categorical_cols Examples.paints_descriptor ↔
       c ∈ columns Examples.paints ∧
       (c ∉ columns (_get_numeric_data Examples.paints)) ∧
       c ≠ dependent_col Examples.paints_descriptor.
Proof. exact (inferred_categorical_cols _ _ _ _ init_paints). Defined.

Lemma remove_dups_NoDup {A} `{EqDecision A} (l : list A) :
  NoDup l → remove_dups l = l.
Proof.
  induction 1 as [|x l Hx Hnd IH]; [done|]. simpl.
  destruct (decide_rel elem_of x l); [done|]. by rewrite IH.
Qed.

Lemma length_difference_labels (l : DataFrame) (N : list string) dep :
  (∀ c, c ∈ l → label c ∈ N ↔ kind c = numeric) →
  length (list_difference (columns l) (N ++ [dep]))
    = length (filter (λ c, kind c = object ∧ label c ≠ dep) l).
Proof.
  induction l as [|a l IH]; [done|]. intros HN.
  assert (Ha : label a ∈ N ↔ kind a = numeric)
    by apply HN, list_elem_of_here.
  specialize (IH (λ c Hc, HN c (list_elem_of_further _ _ _ Hc))).
  unfold columns in *. rewrite filter_cons. csimpl.
  destruct (decide_rel elem_of (label a) (N ++ [dep])) as [Hin|Hnin].
  - rewrite decide_False; [done|]. intros [Hobj Hne].
    apply elem_of_app in Hin as [Hin|Hin%list_elem_of_singleton]; [|done].
    apply Ha in Hin. congruence.
  - rewrite decide_True; [simpl; by rewrite IH|].
    apply not_elem_of_app in Hnin as [HnN Hnd].
    rewrite list_elem_of_singleton in Hnd. split; [|done].
    destruct (kind a); [|done]. exfalso. by apply HnN, Ha.
Qed.

Lemma length_by_kind (l : DataFrame) dep :
  length l
    = length (filter (λ c, kind c = numeric ∧ label c ≠ dep) l)
      + length (filter (λ c, kind c = object ∧ label c ≠ dep) l)
      + length (filter (λ c, label c = dep) l).
Proof.
  induction l as [|a l IH]; [done|]. rewrite !filter_cons. simpl.
  destruct (decide (label a = dep)) as [Hdep|Hdep].
  - rewrite !decide_False by tauto. simpl. lia.
  - destruct (kind a) eqn:Hkind.
    + rewrite decide_True by done.
      rewrite decide_False by (intros [? _]; done). simpl. lia.
    + rewrite decide_False by (intros [? _]; done).
      rewrite decide_True by done. simpl. lia.
Qed.

Lemma resolved_dependent_col_elem_of (df : DataFrame) dep c :
  _set_dependent_col df dep = Ok c → c ∈ columns df.
Proof.
  unfold _set_dependent_col. destruct dep as [name|].
  - case_decide; [|done]. by intros [= <-].
  - destruct (last (columns df)) as [c'|] eqn:Hlast; [|done].
    intros [= <-]. by apply last_Some_elem_of.
Qed.

(** X8.  With the categorical columns inferred, on a frame with pairwise
    distinct labels, [n_numerical] is the number of numeric columns other
    than the dependent one, whether the dependent column is numeric or
    not. *)
Theorem n_numerical_counts (df : DataFrame) pt dep d cls :
  __init__ df pt dep None = Ok d →
  NoDup (columns df) →
  n_numerical (Heap d cls) =
    (Ok (Z.of_nat (length (filter (λ c, kind c = numeric ∧
                                        label c ≠ dependent_col d) df))),
     Heap d cls).
Proof.
  intros Hd Hnd.
  apply init_fields in Hd as (Hres & Hdf & _ & Hcats & _).
  unfold n_numerical, n_columns, n_categorical, shape1. run.
  rewrite Hdf, Hcats. simpl. unfold set_difference.
  rewrite remove_dups_NoDup by done.
  rewrite (length_difference_labels df _ (dependent_col d))
    by (intros c Hc; by apply numeric_label_NoDup).
  apply resolved_dependent_col_elem_of in Hres.
  destruct (getitem_NoDup _ _ Hnd Hres) as [k Hk%getitem_filter].
  pose proof (length_by_kind df (dependent_col d)) as Hlen.
  rewrite Hk in Hlen. simpl in Hlen. do 2 f_equal. lia.
Qed.

Lemma n_numerical_counts_witness :
  NoDup (columns Examples.paints) ∧
  n_numerical (Heap Examples.paints_descriptor ∅)
    = (Ok 1%Z, Heap Examples.paints_descriptor ∅) ∧
  NoDup (columns Examples.pets) ∧
  n_numerical (Heap Examples.pets_descriptor ∅)
    = (Ok 0%Z, Heap Examples.pets_descriptor ∅).
Proof.
  assert (Hp : NoDup (columns Examples.paints))
    by (apply (bool_decide_unpack _); by vm_compute).
  assert (Hq : NoDup (columns Examples.pets))
    by (apply (bool_decide_unpack _); by vm_compute).
  split_and!; [done| |done|].
  - exact (n_numerical_counts _ _ _ _ ∅ init_paints Hp).
  - exact (n_numerical_counts _ _ _ _ ∅ init_pets Hq).
Defined.

(** ** Independent columns, in general *)

Lemma independent_col_single_char_witness :
  String.length (dependent_col Examples.points_descriptor) = 1 ∧
  ∀ c, c ∈ independent_col Examples.points_descriptor ↔
       c ∈ columns Examples.points ∧
       c ≠ dependent_col Examples.points_descriptor.
Proof.
  split; [done|]. intros c.
  exact (independent_col_single_char _ _ _ _ _ c init_points eq_refl).
Defined.

Lemma independent_col_keeps_dependent_witness :
  String.length (dependent_col Examples.pets_descriptor) ≠ 1 ∧
  dependent_col Examples.pets_descriptor
    ∈ independent_col Examples.pets_descriptor.
Proof.
  assert (Hlen : String.length (dependent_col Examples.pets_descriptor) ≠ 1)
    by done.
  split; [done|].
  exact (independent_col_keeps_dependent _ _ _ _ _ init_pets Hlen).
Defined.

(** ** Class probabilities, further *)

Lemma get_class_probablity_Ok h probs h' :
  _get_class_probablity h = (Ok probs, h') →
  class_probablities (self h') = Some probs ∧
  prediction_type (self h') = prediction_type (self h) ∧
  symbol_counts_dict h' = symbol_counts_dict h.
Proof.
  unfold _get_class_probablity, n_rows. run.
  destruct (class_probablities (self h)) as [p|] eqn:Hp; simpl.
  - intros [= <- <-]. done.
  - run. destruct (getitem _ _) as [k|e]; simpl; [|done].
    intros [= <- <-]. done.
Qed.

(** X9.  The class probabilities are computed once: after a class
    probability accessor has returned, a further call of it returns the same
    value and writes nothing. *)
Theorem class_prob_accessor_idempotent `{NumericLib} (m : method scalar)
    h v h' :
  m ∈ class_prob_accessors →
  m h = (Ok v, h') →
  m h' = (Ok v, h').
Proof.
  intros [r ->]%class_prob_accessors_shape.
  destruct (decide (prediction_type (self h) = "regression")) as [Hpt|Hpt].
  - rewrite class_prob_stat_regression by done. intros [= <- <-].
    by apply class_prob_stat_regression.
  - rewrite class_prob_stat_compute by done. run.
    destruct (_get_class_probablity h) as [[p|e] h1] eqn:Hget; [|done].
    intros [= <- <-].
    apply get_class_probablity_Ok in Hget as (Hslot & Hpt' & _).
    rewrite class_prob_stat_compute by congruence. run.
    by rewrite (get_class_probablity_memo h1 p).
Qed.

Lemma class_prob_accessor_idempotent_witness :
  ∃ v h',
    class_prob_max (Heap Examples.pets_descriptor ∅) = (Ok v, h') ∧
    class_prob_max h' = (Ok v, h').
Proof.
  eexists _, _. split; [vm_compute; reflexivity|].
  apply (class_prob_accessor_idempotent class_prob_max
           (Heap Examples.pets_descriptor ∅)).
  - apply list_elem_of_further, list_elem_of_here.
  - vm_compute; reflexivity.
Defined.

(** X10.  On a classification descriptor [n_classes] counts a missing
    dependent cell as a class, and the class probabilities have no entry
    for it: the number of classes is the number of entries, plus one when
    a dependent cell is missing. *)
Theorem n_classes_and_probabilities (d : Dataset) cls k :
  prediction_type d = "classification" →
  class_probablities d = None →
  getitem (df d) (dependent_col d) = Ok k →
  ∃ probs h',
    _get_class_probablity (Heap d cls) = (Ok probs, h') ∧
    n_classes (Heap d cls) =
      (Ok (Num (Z.of_nat (length probs
                           + (if decide (VNaN ∈ cells k) then 1 else 0)) # 1)),
       Heap d cls).
Proof.
  intros Hpt Hp Hk.
  pose proof (get_class_probablity_first (Heap d cls) k Hp Hk) as Hget.
  simpl in Hget. eexists _, _. split; [exact Hget|].
  unfold n_classes. run. rewrite Hpt. simpl. run. rewrite Hk. simpl.
  unfold counts_div, value_counts. rewrite !length_fmap.
  by rewrite length_unique_n_symbols.
Qed.

Lemma n_classes_and_probabilities_witness :
  (n_classes (Heap Examples.tickets_descriptor ∅)).1 = Ok (Num 2) ∧
  ∃ probs,
    (_get_class_probablity (Heap Examples.tickets_descriptor ∅)).1
      = Ok probs ∧
    length probs = 1.
Proof.
  destruct (n_classes_and_probabilities Examples.tickets_descriptor ∅
              (Column "label" object [VStr "spam"; VNaN])
              eq_refl eq_refl eq_refl) as (probs & h' & Hget & Hn).
  rewrite Hn, Hget. simpl.
  vm_compute in Hget. injection Hget as <- _.
  split; [reflexivity|]. by eexists.
Defined.

(** X11.  On a frame with aligned rows, each class probability of a
    constructed descriptor is a number above zero and at most one. *)
Theorem class_probabilities_in_range (data : DataFrame) pt dep cats d cls k :
  __init__ data pt dep cats = Ok d →
  getitem data (dependent_col d) = Ok k →
  aligned data →
  ∃ probs h',
    _get_class_probablity (Heap d cls) = (Ok probs, h') ∧
    ∀ v x, (v, x) ∈ probs → ∃ q, x = Num q ∧ (0 < q)%Q ∧ (q <= 1)%Q.
Proof.
  intros Hd Hk Hal.
  assert (Hlen : length (cells k) = shape0 data).
  { pose proof (getitem_Ok_inv _ _ _ Hk) as [Hin _].
    unfold aligned in Hal. rewrite Forall_forall in Hal. by apply Hal. }
  pose proof (init_fields _ _ _ _ _ Hd)
    as (_ & Hdf & _ & _ & _ & _ & _ & Hprobs).
  pose proof (get_class_probablity_first (Heap d cls) k) as Hget.
  simpl in Hget. rewrite Hdf in Hget. specialize (Hget Hprobs Hk).
  simpl in Hget. eexists _, _. split; [exact Hget|].
  intros v x. unfold counts_div, value_counts.
  rewrite <- list_fmap_compose, list_elem_of_fmap. simpl.
  intros (w & [= -> ->] & Hw).
  apply elem_of_unique, elem_of_dropna in Hw as [Hw _].
  assert (Hpos : 0 < count w (cells k)).
  { unfold count. destruct (filter _ (cells k)) eqn:Hf; simpl; [|lia].
    assert (Hin : w ∈ filter (λ w', w' = w) (cells k))
      by by apply list_elem_of_filter.
    rewrite Hf in Hin. by apply elem_of_nil in Hin. }
  assert (Hle : count w (cells k) ≤ length (cells k))
    by apply length_filter.
  rewrite true_div_pos by lia. eexists. split; [done|].
  unfold Qlt, Qle. simpl. lia.
Qed.

Lemma class_probabilities_in_range_witness :
  aligned Examples.pets ∧
  ∃ probs,
    (_get_class_probablity (Heap Examples.pets_descriptor ∅)).1 = Ok probs ∧
    ∀ v x, (v, x) ∈ probs → ∃ q, x = Num q ∧ (0 < q)%Q ∧ (q <= 1)%Q.
Proof.
  assert (Hal : aligned Examples.pets) by by repeat constructor.
  split; [done|].
  destruct (class_probabilities_in_range Examples.pets None None None
              Examples.pets_descriptor ∅
              (Column "label" object [VStr "cat"; VStr "dog"; VStr "dog"])
              init_pets eq_refl Hal) as (probs & h' & Hget & Hrange).
  exists probs. by rewrite Hget.
Defined.

(** ** The first lookup of the correlations *)

Lemma init_pets_regression :
  __init__ Examples.pets (Some "regression") None None
    = Ok Examples.pets_regression.
Proof. reflexivity. Qed.

Lemma select_by_filter {A} (P : A → bool) (l : list A) :
  select_by (P <$> l) l = filter (λ x, P x = true) l.
Proof.
  induction l as [|x l IH]; [done|]. csimpl. rewrite filter_cons, IH.
  destruct (P x); [by rewrite decide_True|by rewrite decide_False].
Qed.

Lemma length_select_by {A B} keep (l1 : list A) (l2 : list B) :
  length l1 = length l2 →
  length (select_by keep l1) = length (select_by keep l2).
Proof.
  revert l1 l2. induction keep as [|b keep IH]; intros [|x l1] [|y l2];
    simpl; try done.
  intros [= Hlen]. destruct b; simpl; auto.
Qed.

Lemma get_corr_first `{NumericLib} h :
  prediction_type (self h) = "regression" →
  corr_with_dependent (self h) = None →
  _get_corr_with_dependent h =
    match corr_getitem (df_encoded (self h)) (dependent_col (self h)) with
    | Ok t =>
        let t' := loc_index_ne t (dependent_col (self h)) in
        (Ok (Some t'),
         Heap (with_corr_with_dependent (self h) (Some t'))
              (symbol_counts_dict h))
    | Raise e => (Raise e, h)
    end.
Proof.
  intros Hpt Hslot. unfold _get_corr_with_dependent. run.
  rewrite decide_True by done. simpl. rewrite Hslot. simpl.
  by destruct (corr_getitem _ _).
Qed.

(** X12.  On a regression descriptor whose dependent column is not a
    numeric column of the encoded frame, every correlation accessor raises
    KeyError and stores nothing. *)
Theorem corr_of_non_numeric_dependent_raises `{NumericLib}
    (m : method answer) d cls :
  m ∈ corr_accessors →
  prediction_type d = "regression" →
  corr_with_dependent d = None →
  dependent_col d ∉ columns (_get_numeric_data (df_encoded d)) →
  m (Heap d cls) = (Raise KeyError, Heap d cls).
Proof.
  intros [stat ->]%corr_accessors_shape Hpt Hslot Hnin.
  unfold corr_stat. run. rewrite Hpt. simpl.
  rewrite get_corr_first by done. simpl.
  unfold corr_getitem. by rewrite filter_label_nil.
Qed.

Lemma corr_of_non_numeric_dependent_raises_witness :
  prediction_type Examples.pets_regression = "regression" ∧
  (dependent_col Examples.pets_regression
     ∉ columns (_get_numeric_data (df_encoded Examples.pets_regression))) ∧
  corr_with_dependent_abs_mean (Heap Examples.pets_regression ∅)
    = (Raise KeyError, Heap Examples.pets_regression ∅).
Proof.
  assert (Hnin : dependent_col Examples.pets_regression
            ∉ columns (_get_numeric_data (df_encoded Examples.pets_regression)))
    by (apply (bool_decide_unpack _); by vm_compute).
  split_and!; [done..|].
  apply (corr_of_non_numeric_dependent_raises corr_with_dependent_abs_mean);
    [|done..].
  do 2 apply list_elem_of_further. apply list_elem_of_here.
Defined.

(** X13.  On a regression descriptor whose dependent column is a numeric
    column of the encoded frame, the first lookup of the correlations
    returns and stores a table indexed by the labels of the numeric columns
    of the encoded frame other than the dependent label, in their order;
    each selected column has one entry for each label of the index. *)
Theorem corr_table_index `{NumericLib} (d : Dataset) cls :
  prediction_type d = "regression" →
  corr_with_dependent d = None →
  dependent_col d ∈ columns (_get_numeric_data (df_encoded d)) →
  ∃ t, _get_corr_with_dependent (Heap d cls)
         = (Ok (Some t), Heap (with_corr_with_dependent d (Some t)) cls) ∧
       index t = filter (λ c, c ≠ dependent_col d)
                   (columns (_get_numeric_data (df_encoded d))) ∧
       (dependent_col d ∉ index t) ∧
       selected t ≠ [] ∧
       Forall (λ col, length col = length (index t)) (selected t).
Proof.
  intros Hpt Hslot Hin.
  rewrite get_corr_first by done. simpl. unfold corr_getitem.
  destruct (filter _ (_get_numeric_data (df_encoded d))) as [|k sel] eqn:Hsel.
  { exfalso. apply list_elem_of_fmap in Hin as (c & Hlab & Hc).
    assert (Hcin : c ∈ filter (λ c', label c' = dependent_col d)
                         (_get_numeric_data (df_encoded d)))
      by by apply list_elem_of_filter.
    rewrite Hsel in Hcin. by apply elem_of_nil in Hcin. }
  simpl. eexists. split; [reflexivity|]. unfold loc_index_ne. simpl.
  assert (Hidx : select_by
            ((λ i, bool_decide (i ≠ dependent_col d))
               <$> columns (_get_numeric_data (df_encoded d)))
            (columns (_get_numeric_data (df_encoded d)))
          = filter (λ c, c ≠ dependent_col d)
              (columns (_get_numeric_data (df_encoded d)))).
  { rewrite (select_by_filter (λ i, bool_decide (i ≠ dependent_col d))).
    apply filter_ext_elem_of. intros c _.
    by rewrite bool_decide_eq_true. }
  split_and!.
  - done.
  - rewrite Hidx. by intros [? _]%list_elem_of_filter.
  - done.
  - apply Forall_forall. intros col Hcol.
    change (col ∈ select_by
              ((λ i, bool_decide (i ≠ dependent_col d))
                 <$> columns (_get_numeric_data (df_encoded d)))
              <$> ((λ k', (λ c, pearson (cells c) (cells k'))
                            <$> _get_numeric_data (df_encoded d))
                     <$> (k :: sel))) in Hcol.
    apply list_elem_of_fmap in Hcol as (col0 & -> & Hcol0).
    apply list_elem_of_fmap in Hcol0 as (k' & -> & _).
    apply length_select_by. unfold columns. by rewrite !length_fmap.
Qed.

Lemma corr_table_index_witness :
  ∃ t, (_get_corr_with_dependent (Heap Examples.paints_descriptor ∅)).1
         = Ok (Some t) ∧
       index t = ["x"; "color_blue"; "color_green"; "color_red"].
Proof.
  destruct (corr_table_index Examples.paints_descriptor ∅ eq_refl eq_refl)
    as (t & Hget & Hidx & _).
  - apply (bool_decide_unpack _). by vm_compute.
  - exists t. rewrite Hget. split; [done|]. rewrite Hidx. reflexivity.
Defined.

(** ** Symbol counts of the first instance that is queried *)

Lemma bind_run {A B} (m : method A) (k : A → method B) h :
  (m ≫= k) h =
    match m h with
    | (Ok a, h') => k a h'
    | (Raise e, h') => (Raise e, h')
    end.
Proof. done. Qed.

Lemma count_symbols_loop (d : Dataset) cs (m0 : gmap string nat) :
  (∀ c, c ∈ cs → ∃ k, getitem (df d) c = Ok k) →
  ∃ m1 : gmap string nat,
    for_each cs (λ column,
      f ← gets df;
      k ← lift (getitem f column);
      symbol_counts_dict_setitem column (length (unique (dropna (cells k)))))
      (Heap d m0) = (Ok (), Heap d m1) ∧
    ∀ c, m1 !! c = if decide (c ∈ cs) then Some (symbol_count (df d) c)
                   else m0 !! c.
Proof.
  revert m0. induction cs as [|x r IH]; intros m0 Hsel.
  - exists m0. split; [done|]. intros c.
    rewrite decide_False; [done|]. by intros ?%elem_of_nil.
  - destruct (Hsel x (list_elem_of_here _ _)) as [k Hk].
    destruct (IH (<[x := n_symbols k]> m0)
                (λ c Hc, Hsel c (list_elem_of_further _ _ _ Hc)))
      as (m1 & Hloop & Hm1).
    exists m1. split.
    + simpl. run. rewrite Hk. simpl. unfold symbol_counts_dict_setitem.
      simpl. exact Hloop.
    + intros c. rewrite Hm1.
      destruct (decide (c ∈ r)) as [Hr|Hr].
      * by rewrite decide_True by by apply list_elem_of_further.
      * destruct (decide (c = x)) as [->|Hne].
        -- rewrite decide_True by apply list_elem_of_here.
           rewrite lookup_insert_eq. unfold symbol_count. by rewrite Hk.
        -- rewrite lookup_insert_ne by done.
           rewrite decide_False; [done|]. by intros [?|?]%elem_of_cons.
Qed.

(** X14.  The first instance to query its symbols, each of its
    categorical labels selecting a column of its frame: the dict of the
    class then maps each categorical label to the number of distinct
    non-missing values of its column, and holds no other key. *)
Theorem symbol_counts_of_first_instance (d : Dataset) :
  (∀ c, c ∈ categorical_cols d → ∃ k, getitem (df d) c = Ok k) →
  ∃ m : gmap string nat,
    _get_symbols_per_category (Heap d ∅) = (Ok m, Heap d m) ∧
    ∀ c, m !! c = if decide (c ∈ categorical_cols d)
                  then Some (symbol_count (df d) c) else None.
Proof.
  intros Hsel. destruct (count_symbols_loop d _ ∅ Hsel) as (m & Hloop & Hm).
  exists m. split.
  - unfold _get_symbols_per_category. rewrite bind_run.
    unfold get_symbol_counts_dict at 1. cbn [symbol_counts_dict].
    rewrite decide_True by done. rewrite bind_run.
    unfold gets at 1. cbn [self]. rewrite bind_run. by rewrite Hloop.
  - intros c. rewrite Hm. by rewrite lookup_empty.
Qed.

Lemma symbol_counts_of_first_instance_witness :
  ∃ m : gmap string nat,
    _get_symbols_per_category (Heap Examples.paints_descriptor ∅)
      = (Ok m, Heap Examples.paints_descriptor m) ∧
    m !! "color" = Some 3 ∧ m !! "x" = None.
Proof.
  destruct (symbol_counts_of_first_instance Examples.paints_descriptor)
    as (m & Hget & Hm).
  - intros c ->%list_elem_of_singleton. by eexists.
  - exists m. split; [done|]. split; rewrite Hm; reflexivity.
Defined.

Lemma sum_list_Permutation (l k : list nat) :
  l ≡ₚ k → sum_list l = sum_list k.
Proof. induction 1; simpl; lia. Qed.

Lemma np_nanmean_nonempty l :
  l ≠ [] →
  np_nanmean l = Num (Z.of_nat (sum_list l) # Pos.of_nat (length l)).
Proof. by destruct l. Qed.

(** X15.  For that first instance, with at least one categorical label
    and no label listed twice, [symbols_sum] is the sum over the
    categorical columns of their numbers of distinct non-missing values,
    and [symbols_mean] is that sum over the number of categorical
    columns. *)
Theorem symbols_sum_of_first_instance (d : Dataset) :
  (∀ c, c ∈ categorical_cols d → ∃ k, getitem (df d) c = Ok k) →
  NoDup (categorical_cols d) →
  categorical_cols d ≠ [] →
  let total := sum_list (symbol_count (df d) <$> categorical_cols d) in
  (symbols_sum (Heap d ∅)).1 = Ok (Num (Z.of_nat total # 1)) ∧
  (symbols_mean (Heap d ∅)).1 =
    Ok (Num (Z.of_nat total # Pos.of_nat (length (categorical_cols d)))).
Proof.
  intros Hsel Hnd Hne total.
  destruct (symbol_counts_of_first_instance d Hsel) as (m & Hget & Hm).
  set (l := (λ c, (c, symbol_count (df d) c)) <$> categorical_cols d).
  assert (Hfst : l.*1 = categorical_cols d).
  { unfold l. rewrite <- list_fmap_compose.
    rewrite (Forall_fmap_ext_1 _ id) by by apply Forall_forall.
    apply list_fmap_id. }
  assert (Hsnd : l.*2 = symbol_count (df d) <$> categorical_cols d).
  { unfold l. by rewrite <- list_fmap_compose. }
  assert (Heq : m = list_to_map l).
  { apply map_eq. intros c. rewrite Hm. case_decide as Hc.
    - symmetry. apply elem_of_list_to_map; [by rewrite Hfst|].
      apply list_elem_of_fmap. by exists c.
    - symmetry. apply not_elem_of_list_to_map. by rewrite Hfst. }
  assert (Hperm : dict_values m ≡ₚ symbol_count (df d) <$> categorical_cols d).
  { unfold dict_values. rewrite Heq, map_to_list_to_map by by rewrite Hfst.
    by rewrite Hsnd. }
  assert (Hm_ne : m ≠ ∅).
  { destruct (categorical_cols d) as [|c cs] eqn:Hcs; [done|].
    intros ->. specialize (Hm c). rewrite lookup_empty in Hm.
    by rewrite decide_True in Hm by apply list_elem_of_here. }
  unfold symbols_sum, symbols_mean, symbols_stat. run.
  rewrite Hget. simpl. rewrite !decide_False by done. simpl.
  assert (Hvals : dict_values m ≠ []).
  { intros Hnil. rewrite Hnil in Hperm. apply Permutation_nil_l in Hperm.
    symmetry in Hperm. by apply fmap_nil_inv in Hperm. }
  rewrite np_nanmean_nonempty by done. unfold np_sum.
  rewrite (sum_list_Permutation _ _ Hperm).
  by rewrite Hperm, length_fmap.
Qed.

Lemma symbols_sum_of_first_instance_witness :
  (symbols_sum (Heap Examples.paints_descriptor ∅)).1 = Ok (Num 3) ∧
  (symbols_mean (Heap Examples.paints_descriptor ∅)).1 = Ok (Num 3).
Proof.
  destruct (symbols_sum_of_first_instance Examples.paints_descriptor)
    as [Hsum Hmean].
  - intros c ->%list_elem_of_singleton. by eexists.
  - apply (bool_decide_unpack _). by vm_compute.
  - done.
  - rewrite Hsum, Hmean. split; reflexivity.
Defined.

(** ** Repeated calls of the symbol accessors on one instance *)

Lemma count_symbols_loop_Ok cs h h2 :
  for_each cs (λ column,
    f ← gets df;
    k ← lift (getitem f column);
    symbol_counts_dict_setitem column (length (unique (dropna (cells k))))) h
    = (Ok (), h2) →
  self h2 = self h ∧ ((cs = [] ∧ h2 = h) ∨ symbol_counts_dict h2 ≠ ∅).
Proof.
  revert h. induction cs as [|x r IH]; intros h.
  - intros [= <-]. split; [done|]. by left.
  - cbn [for_each]. rewrite bind_run, bind_run. unfold gets at 1.
    rewrite bind_run. unfold lift at 1.
    destruct (getitem (df (self h)) x) as [k|e]; [|done].
    unfold symbol_counts_dict_setitem at 1.
    intros [Hself Hdict]%IH. simpl in *. split; [done|]. right.
    destruct Hdict as [[_ ->]|Hdict]; [|done]. simpl.
    apply insert_non_empty.
Qed.

Lemma get_symbols_Ok h D h1 :
  _get_symbols_per_category h = (Ok D, h1) →
  symbol_counts_dict h1 = D ∧ (D = ∅ → h1 = h).
Proof.
  unfold _get_symbols_per_category. rewrite bind_run.
  unfold get_symbol_counts_dict at 1.
  destruct (decide (symbol_counts_dict h = ∅)) as [Hempty|Hne].
  - rewrite bind_run. unfold gets at 1. rewrite bind_run.
    destruct (for_each _ _ h) as [[[]|e] h2] eqn:Hloop; [|done].
    unfold get_symbol_counts_dict. intros [= <- <-]. split; [done|].
    apply count_symbols_loop_Ok in Hloop as [_ [[_ ->]|Hdict]]; done.
  - intros [= <- <-]. done.
Qed.

(** X16.  On one instance a symbol accessor that has returned returns the
    same value when called again, and the second call writes nothing. *)
Theorem symbols_accessor_idempotent `{NumericLib} (m : method scalar)
    h v h' :
  m ∈ symbols_accessors →
  m h = (Ok v, h') →
  m h' = (Ok v, h').
Proof.
  intros [stat ->]%symbols_accessors_shape.
  unfold symbols_stat at 1. rewrite bind_run.
  destruct (_get_symbols_per_category h) as [[D|e] h1] eqn:Hget; [|done].
  apply get_symbols_Ok in Hget as Hinv. destruct Hinv as [Hdict Hsame].
  destruct (decide (D = ∅)) as [->|Hne].
  - intros [= <- <-]. rewrite (Hsame eq_refl).
    unfold symbols_stat. rewrite bind_run, Hget.
    by rewrite decide_True, (Hsame eq_refl).
  - unfold lift. intros [= Hv <-].
    rewrite symbols_stat_shared by congruence. by rewrite Hdict, Hv.
Qed.

Lemma symbols_accessor_idempotent_witness :
  ∃ v h',
    symbols_max (Heap Examples.paints_descriptor ∅) = (Ok v, h') ∧
    symbols_max h' = (Ok v, h').
Proof.
  eexists _, _. split; [vm_compute; reflexivity|].
  apply (symbols_accessor_idempotent symbols_max
           (Heap Examples.paints_descriptor ∅)).
  - do 3 apply list_elem_of_further. apply list_elem_of_here.
  - vm_compute; reflexivity.
Defined.

(** ** Statistics that do not apply *)

Lemma not_applicable_guards_witness :
  (prediction_type Examples.pets_descriptor = "classification" ∧
   corr_with_dependent_abs_median (Heap Examples.pets_descriptor ∅)
     = (Ok (Scalar NaN), Heap Examples.pets_descriptor ∅)) ∧
  (prediction_type Examples.points_descriptor = "regression" ∧
   class_prob_mean (Heap Examples.points_descriptor ∅)
     = (Ok NaN, Heap Examples.points_descriptor ∅)) ∧
  (categorical_cols Examples.points_descriptor = [] ∧
   symbols_min (Heap Examples.points_descriptor ∅)
     = (Ok NaN, Heap Examples.points_descriptor ∅)).
Proof.
  destruct (not_applicable_guards Examples.pets_descriptor ∅)
    as (Hcorr & _ & _).
  destruct (not_applicable_guards Examples.points_descriptor ∅)
    as (_ & Hprob & Hsym).
  split; [split; [reflexivity|]|split; split; [reflexivity| |reflexivity|]].
  - apply (Hcorr eq_refl).
    do 3 apply list_elem_of_further. apply list_elem_of_here.
  - apply (Hprob eq_refl).
    do 3 apply list_elem_of_further. apply list_elem_of_here.
  - apply (Hsym eq_refl).
    do 2 apply list_elem_of_further. apply list_elem_of_here.
Defined.

(** X17.  Once the dict of the class holds an entry, a symbol accessor
    returns the same answer on every instance, whatever the frame and the
    categorical columns of the instance are, and writes nothing. *)
Theorem symbols_shared_across_instances `{NumericLib} (m : method scalar)
    (d1 d2 : Dataset) cls :
  m ∈ symbols_accessors →
  cls ≠ ∅ →
  (m (Heap d1 cls)).1 = (m (Heap d2 cls)).1 ∧
  (m (Heap d1 cls)).2 = Heap d1 cls ∧
  (m (Heap d2 cls)).2 = Heap d2 cls.
Proof.
  intros [stat ->]%symbols_accessors_shape Hne.
  by rewrite !symbols_stat_shared.
Qed.

Lemma symbols_shared_across_instances_witness :
  ({[ "color" := 3 ]} : gmap string nat) ≠ ∅ ∧
  (symbols_sum (Heap Examples.paints_descriptor {[ "color" := 3 ]})).1
    = (symbols_sum (Heap Examples.points_descriptor {[ "color" := 3 ]})).1.
Proof.
  assert (Hne : ({[ "color" := 3 ]} : gmap string nat) ≠ ∅)
    by apply insert_non_empty.
  split; [done|].
  apply (symbols_shared_across_instances symbols_sum
           Examples.paints_descriptor Examples.points_descriptor _);
    [|done].
  do 4 apply list_elem_of_further. apply list_elem_of_here.
Defined.

(** ** Construction with inferred categorical columns *)

Lemma columns_encode_column (df : DataFrame) col enc c :
  encode_column df col = Ok enc → c ∈ columns df → c ≠ col → c ∈ columns enc.
Proof.
  intros Henc (k & -> & Hk)%list_elem_of_fmap Hne.
  apply list_elem_of_fmap. exists k. split; [done|].
  by eapply encode_column_keeps.
Qed.

Lemma encode_columns_no_KeyError cats (df : DataFrame) :
  NoDup cats → (∀ c, c ∈ cats → c ∈ columns df) →
  encode_columns cats df ≠ Raise KeyError.
Proof.
  revert df. induction cats as [|col rest IH]; intros df Hnd Hin; [done|].
  apply NoDup_cons in Hnd as [Hcol Hnd]. simpl.
  destruct (encode_column df col) as [df'|e] eqn:Henc; simpl.
  - apply IH; [done|]. intros c Hc.
    eapply columns_encode_column; [done| |by intros ->].
    by apply Hin, list_elem_of_further.
  - intros [= ->]. apply encode_column_raises in Henc as [[_ Hnin]|[? _]];
      [|done].
    apply Hnin, Hin, list_elem_of_here.
Qed.

(** X18.  With the categorical columns inferred, construction never raises
    KeyError: every inferred label is a label of the frame, and the
    encoding of one column leaves the others in the working frame. *)
Theorem inferred_construction_no_KeyError (df : DataFrame) pt dep :
  __init__ df pt dep None ≠ Raise KeyError.
Proof.
  intros He. apply init_raises in He as [He|(c & Hc & He)].
  - unfold _set_dependent_col in He. destruct dep as [name|].
    + by case_decide.
    + by destruct (last (columns df)).
  - revert He. apply encode_columns_no_KeyError.
    + apply NoDup_list_difference, NoDup_remove_dups.
    + intros x Hx. simpl in Hx. by apply elem_of_set_difference in Hx as [? _].
Qed.

Lemma inferred_construction_no_KeyError_witness :
  __init__ Examples.survey None None None ≠ Raise KeyError.
Proof. exact (inferred_construction_no_KeyError Examples.survey None None). Defined.
